(** * Firefox DevTools MCP server: accessibility snapshots

    A shallow embedding of [src/tools/take_snapshot.ts] (annotator,
    formatter, orchestrator), [src/browser.ts] (navigation),
    [src/tools/evaluate_script.ts] and the tool dispatcher of
    [src/server.ts], together with the properties the specification
    states about them. *)

From Stdlib Require Import List String Ascii Bool Arith NArith ZArith Lia.
From Stdlib Require Import Decimal DecimalString DecimalN.
Import ListNotations.

Local Open Scope list_scope.
Local Open Scope string_scope.

(** ** JavaScript values *)

(** JavaScript's [number] is an IEEE double.  The code only ever tests a
    number for truthiness ([if (node.value)]) and interpolates it into a
    template literal, so the embedding is generic in the carrier and
    takes exactly these two language primitives as an interface, plus the
    literal [0] (which [ToBoolean] sends to [false]) and the embedding of
    non-negative integer literals. *)
Class JsNumber (num : Type) : Type := {
  num_truthy : num -> bool;          (* ToBoolean *)
  num_to_string : num -> string;     (* ToString, as in a template literal *)
  num_of_N : N -> num;               (* integer literals *)
  num_zero_falsy : num_truthy (num_of_N 0) = false
}.

(** Decimal rendering of a non-negative integer, which is what
    [ToString] yields for the integer-valued counters of this program. *)
Definition dec (n : N) : string := NilEmpty.string_of_uint (N.to_uint n).

(** The integer-valued numbers, as an instance one can compute with. *)
Definition Z_to_string (z : Z) : string :=
  match z with
  | Z0 => "0"
  | Zpos p => dec (Npos p)
  | Zneg p => "-" ++ dec (Npos p)
  end.

#[export] Instance JsNumber_Z : JsNumber Z := {
  num_truthy z := negb (Z.eqb z 0);
  num_to_string := Z_to_string;
  num_of_N := Z.of_N;
  num_zero_falsy := eq_refl
}.

(** [checked?: boolean | 'mixed'] and [pressed?: boolean | 'mixed']. *)
Inductive tristate : Type :=
| TBool (b : bool)
| TMixed.

(** Truthiness of optional fields: an absent field reads [undefined]. *)
Definition str_truthy (s : option string) : bool :=
  match s with
  | Some (String _ _) => true
  | _ => false
  end.

Definition bool_truthy (b : option bool) : bool :=
  match b with
  | Some true => true
  | _ => false
  end.

(** ** The data model: [interface AccessibilityNode] *)

Section Snapshot.

Context {num : Type} `{JsNumber num}.

Inductive jsvalue : Type :=
| VStr (s : string)
| VNum (x : num).

#[local] Unset Elimination Schemes.

Inductive AccessibilityNode : Type := mkNode {
  role : option string;
  name : option string;
  value : option jsvalue;
  description : option string;
  keyshortcuts : option string;
  roledescription : option string;
  valuetext : option string;
  disabled : option bool;
  expanded : option bool;
  focused : option bool;
  modal : option bool;
  multiline : option bool;
  multiselectable : option bool;
  readonly : option bool;
  required : option bool;
  selected : option bool;
  checked : option tristate;
  pressed : option tristate;
  level : option num;
  valuemin : option num;
  valuemax : option num;
  autocomplete : option string;
  haspopup : option string;
  invalid : option string;
  orientation : option string;
  children : option (list AccessibilityNode);
  uid : option string
}.

#[local] Set Elimination Schemes.

(** [interface UIDCounter { value: number }].  The counter starts at 0
    and is only ever incremented by one, so it is a natural number; it is
    exact as a double below 2^53, far beyond the node count of any tree
    that fits in memory. *)
Definition UIDCounter : Type := N.

(** ** The annotator: [assignUIDs] *)

Definition interactiveRoles : list string :=
  [ "button"; "link"; "textbox"; "searchbox"; "checkbox"; "radio";
    "combobox"; "listbox"; "option"; "menuitem"; "tab"; "switch";
    "slider"; "spinbutton" ].

(** [Array.prototype.includes] on strings. *)
Definition includes (l : list string) (s : string) : bool :=
  existsb (String.eqb s) l.

(** The guard of [assignUIDs]:
    [node.role && (interactiveRoles.includes(node.role) || verbose)]. *)
Definition uid_guard (verbose : bool) (node : AccessibilityNode) : bool :=
  match role node with
  | Some r => str_truthy (Some r) && (includes interactiveRoles r || verbose)
  | None => false
  end.

Definition set_uid (u : option string) (n : AccessibilityNode) : AccessibilityNode :=
  mkNode (role n) (name n) (value n) (description n) (keyshortcuts n)
    (roledescription n) (valuetext n) (disabled n) (expanded n) (focused n)
    (modal n) (multiline n) (multiselectable n) (readonly n) (required n)
    (selected n) (checked n) (pressed n) (level n) (valuemin n) (valuemax n)
    (autocomplete n) (haspopup n) (invalid n) (orientation n) (children n) u.

Definition set_children (c : option (list AccessibilityNode))
    (n : AccessibilityNode) : AccessibilityNode :=
  mkNode (role n) (name n) (value n) (description n) (keyshortcuts n)
    (roledescription n) (valuetext n) (disabled n) (expanded n) (focused n)
    (modal n) (multiline n) (multiselectable n) (readonly n) (required n)
    (selected n) (checked n) (pressed n) (level n) (valuemin n) (valuemax n)
    (autocomplete n) (haspopup n) (invalid n) (orientation n) c (uid n).

(** The eight [delete node.<field>] statements. *)
Definition delete_verbose_fields (n : AccessibilityNode) : AccessibilityNode :=
  mkNode (role n) (name n) (value n) None None
    None None (disabled n) (expanded n) (focused n)
    (modal n) (multiline n) (multiselectable n) (readonly n) (required n)
    (selected n) (checked n) (pressed n) (level n) (valuemin n) (valuemax n)
    None None None None (children n) (uid n).

(** The body of [assignUIDs] up to the recursion: the uid decision with
    its pre-increment of the counter, then the pruning. *)
Definition annotate_node (verbose : bool) (node : AccessibilityNode)
    (counter : UIDCounter) : AccessibilityNode * UIDCounter :=
  let '(node, counter) :=
    if uid_guard verbose node
    then (set_uid (Some ("uid_" ++ dec (counter + 1))) node, (counter + 1)%N)
    else (node, counter) in
  let node := if negb verbose then delete_verbose_fields node else node in
  (node, counter).

(** [assignUIDs(node, verbose, counter)]: the in-place mutation of the
    tree and of the shared counter object is written as state passing;
    [forEach] over the children threads the counter from left to right. *)
Fixpoint assignUIDs (verbose : bool) (node : AccessibilityNode)
    (counter : UIDCounter) {struct node} : AccessibilityNode * UIDCounter :=
  let '(node1, counter1) := annotate_node verbose node counter in
  match children node with
  | Some cs =>
      let fix forEach (l : list AccessibilityNode) (c : UIDCounter)
          {struct l} : list AccessibilityNode * UIDCounter :=
        match l with
        | [] => ([], c)
        | child :: rest =>
            let '(child', c') := assignUIDs verbose child c in
            let '(rest', c'') := forEach rest c' in
            (child' :: rest', c'')
        end in
      let '(cs', counter2) := forEach cs counter1 in
      (set_children (Some cs') node1, counter2)
  | None => (node1, counter1)
  end.

(** ** The formatter: [formatSnapshot] *)

Definition nl : string := String (ascii_of_nat 10) "".
Definition dquote : string := String (ascii_of_nat 34) "".

(** [String.prototype.repeat]. *)
Fixpoint repeat_string (s : string) (n : nat) : string :=
  match n with
  | O => ""
  | S n' => s ++ repeat_string s n'
  end.

(** [Array.prototype.join]. *)
Fixpoint join (sep : string) (l : list string) : string :=
  match l with
  | [] => ""
  | [x] => x
  | x :: rest => x ++ sep ++ join sep rest
  end.

(** [Array.prototype.push], as a new array. *)
Definition push (l : list string) (x : string) : list string := (l ++ [x])%list.

(** [if (node.value)] on a [string | number | undefined]. *)
Definition value_truthy (v : option jsvalue) : bool :=
  match v with
  | Some (VStr s) => str_truthy (Some s)
  | Some (VNum x) => num_truthy x
  | None => false
  end.

(** The interpolation [${node.value}]. *)
Definition value_to_string (v : jsvalue) : string :=
  match v with
  | VStr s => s
  | VNum x => num_to_string x
  end.

Definition opt_string (s : option string) : string :=
  match s with Some x => x | None => "undefined" end.

Definition opt_value_string (v : option jsvalue) : string :=
  match v with Some x => value_to_string x | None => "undefined" end.

(** The [states] array of [formatSnapshot], push by push. *)
Definition node_states (node : AccessibilityNode) : list string :=
  let states := [] in
  let states := if bool_truthy (disabled node) then push states "disabled" else states in
  let states := match checked node with
                | Some (TBool true) => push states "checked" | _ => states end in
  let states := match checked node with
                | Some TMixed => push states "mixed" | _ => states end in
  let states := match expanded node with
                | Some true => push states "expanded" | _ => states end in
  let states := match expanded node with
                | Some false => push states "collapsed" | _ => states end in
  let states := if bool_truthy (selected node) then push states "selected" else states in
  let states := if bool_truthy (focused node) then push states "focused" else states in
  let states := if bool_truthy (required node) then push states "required" else states in
  let states := if bool_truthy (readonly node) then push states "readonly" else states in
  states.

(** The [parts] array of [formatSnapshot], push by push. *)
Definition node_parts (node : AccessibilityNode) : list string :=
  let parts := [] in
  let parts := if str_truthy (uid node)
               then push parts ("[" ++ opt_string (uid node) ++ "]") else parts in
  let parts := if str_truthy (role node)
               then push parts (opt_string (role node)) else parts in
  let parts := if str_truthy (name node)
               then push parts (dquote ++ opt_string (name node) ++ dquote) else parts in
  let parts := if value_truthy (value node)
               then push parts ("value=" ++ dquote ++ opt_value_string (value node) ++ dquote)
               else parts in
  let states := node_states node in
  let parts := if (0 <? List.length states)%nat
               then push parts ("(" ++ join ", " states ++ ")") else parts in
  parts.

(** What [formatSnapshot] appends to [result] for the node itself. *)
Definition node_line (node : AccessibilityNode) (depth : nat) : string :=
  let indent := repeat_string "  " depth in
  let parts := node_parts node in
  if (0 <? List.length parts)%nat then indent ++ join " " parts ++ nl else "".

(** [formatSnapshot(node, depth = 0)]. *)
Fixpoint formatSnapshot (node : AccessibilityNode) (depth : nat)
    {struct node} : string :=
  let result := "" in
  let result := result ++ node_line node depth in
  match children node with
  | Some cs =>
      if (0 <? List.length cs)%nat then
        (fix forEach (l : list AccessibilityNode) (result : string)
             {struct l} : string :=
           match l with
           | [] => result
           | child :: rest =>
               forEach rest (result ++ formatSnapshot child (depth + 1))
           end) cs result
      else result
  | None => result
  end.

(** ** Traversals used to state the properties *)

(** The nodes of a tree in pre-order: a node before its children, the
    children in their original order. *)
Fixpoint preorder (node : AccessibilityNode) : list AccessibilityNode :=
  node ::
  match children node with
  | Some cs =>
      (fix each (l : list AccessibilityNode) : list AccessibilityNode :=
         match l with
         | [] => []
         | child :: rest => (preorder child ++ each rest)%list
         end) cs
  | None => []
  end.

(** The nodes in pre-order, each with its depth in the tree. *)
Fixpoint preorder_depth (node : AccessibilityNode) (depth : nat)
    : list (AccessibilityNode * nat) :=
  (node, depth) ::
  match children node with
  | Some cs =>
      (fix each (l : list AccessibilityNode) : list (AccessibilityNode * nat) :=
         match l with
         | [] => []
         | child :: rest => (preorder_depth child (S depth) ++ each rest)%list
         end) cs
  | None => []
  end.

Definition child_list (node : AccessibilityNode) : list AccessibilityNode :=
  match children node with Some cs => cs | None => [] end.

(** [forEach] with a threaded counter, as a function of its own. *)
Fixpoint forEach_counter (f : AccessibilityNode -> UIDCounter -> AccessibilityNode * UIDCounter)
    (l : list AccessibilityNode) (c : UIDCounter)
    : list AccessibilityNode * UIDCounter :=
  match l with
  | [] => ([], c)
  | child :: rest =>
      let '(child', c') := f child c in
      let '(rest', c'') := forEach_counter f rest c' in
      (child' :: rest', c'')
  end.

(** ** Effects: thrown values, collaborators, and the browser object *)

(** A thrown JavaScript value, as far as the code inspects it:
    [error instanceof Error], [error instanceof TypeError],
    [error.message] and [String(error)]. *)
Inductive exn : Type :=
| JsError (is_type_error : bool) (message : string)
| JsThrown (as_string : string).

Inductive outcome (A : Type) : Type :=
| Return (a : A)
| Throw (e : exn).

Arguments Return {A} a.
Arguments Throw {A} e.

(** The calls the program makes on the outside world, in order. *)
Inductive event : Type :=
| EConsoleError (msg : string)
| EFirefoxLaunch (headless : bool)
| EBrowserNewPage
| EBrowserClose
| EPageGoto (url : string) (timeout : num)
| EAccessibilitySnapshot
| EPageEvaluate (script : string).

(** Values of the tool protocol ([request.params.arguments]). *)
#[local] Unset Elimination Schemes.
Inductive json : Type :=
| JNull
| JBool (b : bool)
| JNum (x : num)
| JStr (s : string)
| JArr (items : list json)
| JObj (fields : list (string * json)).
#[local] Set Elimination Schemes.

(** Property read on an object: [None] is [undefined]. *)
Fixpoint get_field (key : string) (fields : list (string * json)) : option json :=
  match fields with
  | [] => None
  | (k, v) :: rest => if String.eqb k key then Some v else get_field key rest
  end.

Inductive zod_issue : Type :=
| InvalidType (path expected : string)
| InvalidUrl (path : string).

Definition Browser : Type := nat.
Definition Page : Type := nat.

(** The external collaborators: the WHATWG URL parser, the zod library's
    URL check and error rendering, Playwright, and [JSON.stringify].
    What Playwright answers may depend on everything done so far. *)
Record Collaborators : Type := {
  (* [new URL(url).protocol]; [None] when the constructor throws its TypeError *)
  URL_protocol : string -> option string;
  (* the check behind [z.string().url()] *)
  zod_is_url : string -> bool;
  (* [ZodError.message] *)
  zod_message : list zod_issue -> string;
  firefox_launch : list event -> bool -> outcome Browser;
  browser_newPage : list event -> outcome Page;
  page_goto : list event -> string -> num -> outcome unit;
  accessibility_snapshot : list event -> outcome (option AccessibilityNode);
  page_evaluate : list event -> string -> outcome (option json);
  (* [`${JSON.stringify(result, null, 2)}`] *)
  JSON_stringify_2 : option json -> string
}.

(** The fields of [class FirefoxBrowser].  Calls are modelled one at a
    time, so the [connecting] flag, which is false whenever no [connect]
    is in flight, is left out together with the polling wait. *)
Record FirefoxBrowser : Type := {
  browser : option Browser;
  page : option Page;
  headless : bool
}.

(** Computations: the browser object and the log of calls are threaded,
    and a computation returns or throws. *)
Definition M (A : Type) : Type :=
  FirefoxBrowser -> list event -> outcome A * FirefoxBrowser * list event.

Definition ret {A} (a : A) : M A := fun b log => (Return a, b, log).
Definition throw {A} (e : exn) : M A := fun b log => (Throw e, b, log).

Definition bind {A B} (m : M A) (k : A -> M B) : M B :=
  fun b log =>
    match m b log with
    | (Return a, b', log') => k a b' log'
    | (Throw e, b', log') => (Throw e, b', log')
    end.

Definition try_catch {A} (m : M A) (handler : exn -> M A) : M A :=
  fun b log =>
    match m b log with
    | (Return a, b', log') => (Return a, b', log')
    | (Throw e, b', log') => handler e b' log'
    end.

Definition this : M FirefoxBrowser := fun b log => (Return b, b, log).
Definition assign (b' : FirefoxBrowser) : M unit := fun _ log => (Return tt, b', log).

(** A call on a collaborator: logged, then answered from the history. *)
Definition call {A} (e : event) (answer : list event -> outcome A) : M A :=
  fun b log => (answer log, b, (log ++ [e])%list).

Definition console_error (msg : string) : M unit :=
  call (EConsoleError msg) (fun _ => Return tt).

Notation "x <- m ;; k" := (bind m (fun x => k))
  (at level 61, m at next level, right associativity).
Notation "m ;;; k" := (bind m (fun _ => k))
  (at level 61, right associativity).

Variable env : Collaborators.

(** ** [src/browser.ts] *)

Definition DEFAULT_NAVIGATION_TIMEOUT : num := num_of_N 30000.

(** [String.prototype.includes]. *)
Fixpoint string_includes (s needle : string) : bool :=
  String.prefix needle s ||
  match s with
  | EmptyString => false
  | String _ s' => string_includes s' needle
  end.

(** [FirefoxBrowser.connect], outside a concurrent launch. *)
Definition connect : M Page :=
  b <- this ;;
  match page b with
  | Some p => ret p
  | None =>
      try_catch
        (console_error "Launching Firefox..." ;;;
         br <- call (EFirefoxLaunch (headless b)) (fun log => firefox_launch env log (headless b)) ;;
         b <- this ;;
         assign {| browser := Some br; page := page b; headless := headless b |} ;;;
         p <- call EBrowserNewPage (browser_newPage env) ;;
         b <- this ;;
         assign {| browser := browser b; page := Some p; headless := headless b |} ;;;
         console_error "Firefox ready" ;;;
         ret p)
        (fun error =>
           b <- this ;;
           match browser b with
           | Some _ =>
               call EBrowserClose (fun _ => Return tt) ;;;
               assign {| browser := None; page := page b; headless := headless b |}
           | None => ret tt
           end ;;;
           throw error)
  end.

(** [FirefoxBrowser.getPage]. *)
Definition getPage : M Page :=
  b <- this ;;
  match page b with
  | None => throw (JsError false "Firefox not connected. Call connect() first.")
  | Some p => ret p
  end.

(** [FirefoxBrowser.isConnected]. *)
Definition isConnected : M bool :=
  b <- this ;;
  ret (match page b with Some _ => true | None => false end).

(** [FirefoxBrowser.goto(url, timeout)]. *)
Definition goto (url : string) (timeout : num) : M unit :=
  _page <- getPage ;;
  try_catch
    (match URL_protocol env url with
     | None => throw (JsError true "Invalid URL")
     | Some protocol =>
         if negb (includes ["http:"; "https:"] protocol)
         then throw (JsError false
                ("Invalid protocol: " ++ protocol ++ ". Only HTTP and HTTPS are supported."))
         else ret tt
     end)
    (fun error =>
       match error with
       | JsError true _ => throw (JsError false ("Invalid URL format: " ++ url))
       | _ => throw error
       end) ;;;
  console_error ("Navigating to " ++ url) ;;;
  try_catch
    (call (EPageGoto url timeout) (fun log => page_goto env log url timeout))
    (fun error =>
       match error with
       | JsError _ message =>
           if string_includes message "Timeout" then
             throw (JsError false
               ("Navigation timeout after " ++ num_to_string timeout ++ "ms for " ++ url))
           else if string_includes message "net::" then
             throw (JsError false
               ("Network error navigating to " ++ url ++ ": " ++ message))
           else
             throw (JsError false ("Failed to navigate to " ++ url ++ ": " ++ message))
       | _ => throw error
       end).

(** ** [src/tools/take_snapshot.ts]: the orchestrator *)

(** [z.infer<typeof takeSnapshotSchema>]. *)
Record TakeSnapshotArgs : Type := {
  ts_url : option string;
  ts_verbose : option bool
}.

(** [takeSnapshot(page, browser, args)]. *)
Definition takeSnapshot (_page : Page) (args : TakeSnapshotArgs) : M string :=
  (if str_truthy (ts_url args)
   then goto (opt_string (ts_url args)) DEFAULT_NAVIGATION_TIMEOUT
   else ret tt) ;;;
  let uidCounter : UIDCounter := 0%N in
  console_error "Taking accessibility snapshot..." ;;;
  snapshot <- call EAccessibilitySnapshot (accessibility_snapshot env) ;;
  match snapshot with
  | None => ret "No accessibility tree available for this page."
  | Some snapshot =>
      let verbose := match ts_verbose args with Some v => v | None => false end in
      let '(snapshot, uidCounter) := assignUIDs verbose snapshot uidCounter in
      let formattedText := formatSnapshot snapshot 0 in
      let summary := "Accessibility Snapshot (" ++ dec uidCounter ++ " interactive elements)" ++ nl in
      let separator := repeat_string "=" 60 ++ nl in
      ret (summary ++ separator ++ formattedText)
  end.

(** ** [src/tools/evaluate_script.ts] *)

Record EvaluateScriptArgs : Type := {
  es_script : string;
  es_url : option string
}.

(** [evaluateScript(page, browser, args)]. *)
Definition evaluateScript (_page : Page) (args : EvaluateScriptArgs) : M string :=
  (if str_truthy (es_url args)
   then goto (opt_string (es_url args)) DEFAULT_NAVIGATION_TIMEOUT
   else ret tt) ;;;
  console_error "Executing JavaScript..." ;;;
  result <- call (EPageEvaluate (es_script args))
                 (fun log => page_evaluate env log (es_script args)) ;;
  let serialized := JSON_stringify_2 env result in
  ret ("Script executed successfully:" ++ nl ++ nl ++ serialized).

(** ** The schemas *)

(** The zod library is a dependency, not code of this repository.  Its
    documented behaviour for the combinators used here: [z.string()]
    accepts exactly the values of type string, the empty one included;
    [.url()] adds the URL check; [z.boolean()] accepts exactly the
    booleans; [.optional()] also accepts [undefined]; [z.object] reads
    the declared keys, ignores the others, gathers the issues of all
    keys and [parse] throws a ZodError when there is any. *)
Definition zod_string (path : string) (v : option json) : string + list zod_issue :=
  match v with
  | Some (JStr s) => inl s
  | _ => inr [InvalidType path "string"]
  end.

Definition zod_string_url_optional (path : string) (v : option json)
    : option string + list zod_issue :=
  match v with
  | None => inl None
  | Some (JStr s) => if zod_is_url env s then inl (Some s) else inr [InvalidUrl path]
  | Some _ => inr [InvalidType path "string"]
  end.

Definition zod_boolean_optional (path : string) (v : option json)
    : option bool + list zod_issue :=
  match v with
  | None => inl None
  | Some (JBool b) => inl (Some b)
  | Some _ => inr [InvalidType path "boolean"]
  end.

Definition issues_of {A} (r : A + list zod_issue) : list zod_issue :=
  match r with inl _ => [] | inr i => i end.

Definition zod_throw {A} (issues : list zod_issue) : M A :=
  throw (JsError false (zod_message env issues)).

(** [takeSnapshotSchema.parse]. *)
Definition takeSnapshotSchema_parse (args : list (string * json)) : M TakeSnapshotArgs :=
  let url := zod_string_url_optional "url" (get_field "url" args) in
  let verbose := zod_boolean_optional "verbose" (get_field "verbose" args) in
  match url, verbose with
  | inl u, inl v => ret {| ts_url := u; ts_verbose := v |}
  | _, _ => zod_throw (issues_of url ++ issues_of verbose)%list
  end.

(** [evaluateScriptSchema.parse]. *)
Definition evaluateScriptSchema_parse (args : list (string * json)) : M EvaluateScriptArgs :=
  let script := zod_string "script" (get_field "script" args) in
  let url := zod_string_url_optional "url" (get_field "url" args) in
  match script, url with
  | inl s, inl u => ret {| es_script := s; es_url := u |}
  | _, _ => zod_throw (issues_of script ++ issues_of url)%list
  end.

(** ** [src/server.ts]: the tool dispatcher *)

(** The reply of the [CallToolRequestSchema] handler: its single text
    item and the [isError] flag (absent reads as false). *)
Record ToolResponse : Type := {
  text : string;
  isError : bool
}.

(** [FirefoxDevToolsServer.ensureConnected]. *)
Definition ensureConnected : M unit :=
  connected <- isConnected ;;
  if negb connected then (connect ;;; ret tt) else ret tt.

(** The handler registered for [CallToolRequestSchema]; [args] is
    [request.params.arguments], an object when present. *)
Definition callTool (name : string) (args : option (list (string * json)))
    : M ToolResponse :=
  try_catch
    (ensureConnected ;;;
     page <- getPage ;;
     result <-
       (if String.eqb name "take_snapshot" then
          validatedArgs <- takeSnapshotSchema_parse
                             (match args with Some a => a | None => [] end) ;;
          takeSnapshot page validatedArgs
        else if String.eqb name "evaluate_script" then
          validatedArgs <- evaluateScriptSchema_parse
                             (match args with Some a => a | None => [] end) ;;
          evaluateScript page validatedArgs
        else
          throw (JsError false ("Unknown tool: " ++ name))) ;;
     ret {| text := result; isError := false |})
    (fun error =>
       let errorMessage :=
         match error with
         | JsError _ message => message
         | JsThrown s => s
         end in
       ret {| text := "Error: " ++ errorMessage; isError := true |}).

(** ** Notions used to state the properties *)

(** The numbers [start], [start + 1], ... ([len] of them). *)
Fixpoint N_seq (start : N) (len : nat) : list N :=
  match len with
  | O => []
  | S len' => start :: N_seq (start + 1) len'
  end.

(** The number of nodes of a tree that pass the guard of [assignUIDs]. *)
Definition eligible_count (verbose : bool) (t : AccessibilityNode) : nat :=
  List.length (filter (uid_guard verbose) (preorder t)).

(** The uid values carried by the eligible nodes, in pre-order. *)
Definition assigned_uids (verbose : bool) (t : AccessibilityNode) : list (option string) :=
  map uid (filter (uid_guard verbose) (preorder t)).

(** What one run does to a node [n], giving [n']: the role is kept, and
    the uid is a fresh [uid_<i>] when the guard holds and is left as it
    was otherwise. *)
Definition uid_step (verbose : bool) (n n' : AccessibilityNode) : Prop :=
  role n' = role n /\
  if uid_guard verbose n
  then exists i, uid n' = Some ("uid_" ++ dec i)
  else uid n' = uid n.

(** A run over the pre-order list [ns], giving [ns'], with the counter
    going from [c] to [c']. *)
Definition numbered (verbose : bool) (ns ns' : list AccessibilityNode)
    (c c' : UIDCounter) : Prop :=
  let k := List.length (filter (uid_guard verbose) ns) in
  c' = (c + N.of_nat k)%N /\
  Forall2 (uid_step verbose) ns ns' /\
  map uid (filter (uid_guard verbose) ns') =
    map (fun i => Some ("uid_" ++ dec i)) (N_seq (c + 1) k).

(** The fields that [assignUIDs] never writes. *)
Definition kept_fields (n n' : AccessibilityNode) : Prop :=
  role n' = role n /\ name n' = name n /\ value n' = value n /\
  disabled n' = disabled n /\ expanded n' = expanded n /\
  focused n' = focused n /\ modal n' = modal n /\
  multiline n' = multiline n /\ multiselectable n' = multiselectable n /\
  readonly n' = readonly n /\ required n' = required n /\
  selected n' = selected n /\ checked n' = checked n /\
  pressed n' = pressed n /\ level n' = level n /\
  valuemin n' = valuemin n /\ valuemax n' = valuemax n.

(** The eight verbose-only fields. *)
Definition verbose_fields_kept (n n' : AccessibilityNode) : Prop :=
  description n' = description n /\ keyshortcuts n' = keyshortcuts n /\
  roledescription n' = roledescription n /\ valuetext n' = valuetext n /\
  autocomplete n' = autocomplete n /\ haspopup n' = haspopup n /\
  invalid n' = invalid n /\ orientation n' = orientation n.

Definition verbose_fields_absent (n' : AccessibilityNode) : Prop :=
  description n' = None /\ keyshortcuts n' = None /\
  roledescription n' = None /\ valuetext n' = None /\
  autocomplete n' = None /\ haspopup n' = None /\
  invalid n' = None /\ orientation n' = None.

Inductive option_rel {A B : Type} (R : A -> B -> Prop) : option A -> option B -> Prop :=
| option_rel_None : option_rel R None None
| option_rel_Some a b : R a b -> option_rel R (Some a) (Some b).

(** [annotation_of verbose t t']: [t'] is [t] with the same nodes in the
    same places, where a node differs from its original only by its uid
    (and only if the guard holds for it) and, when [verbose] is false,
    by the absence of the eight verbose-only fields. *)
#[local] Unset Elimination Schemes.
Inductive annotation_of (verbose : bool) : AccessibilityNode -> AccessibilityNode -> Prop :=
| annotation_node (n n' : AccessibilityNode) :
    kept_fields n n' ->
    (if verbose then verbose_fields_kept n n' else verbose_fields_absent n') ->
    (if uid_guard verbose n
     then exists i, uid n' = Some ("uid_" ++ dec i)
     else uid n' = uid n) ->
    option_rel (Forall2 (annotation_of verbose)) (children n) (children n') ->
    annotation_of verbose n n'.
#[local] Set Elimination Schemes.

(** Concatenation of a list of strings. *)
Definition flatten (l : list string) : string := fold_right append "" l.

(** The tree with the seven attributes that [formatSnapshot] never reads
    ([pressed], [modal], [multiline], [multiselectable], [level],
    [valuemin], [valuemax]) removed from every node. *)
Fixpoint erase_unrendered (n : AccessibilityNode) : AccessibilityNode :=
  mkNode (role n) (name n) (value n) (description n) (keyshortcuts n)
    (roledescription n) (valuetext n) (disabled n) (expanded n) (focused n)
    None None None (readonly n) (required n)
    (selected n) (checked n) None None None None
    (autocomplete n) (haspopup n) (invalid n) (orientation n)
    (match children n with
     | Some cs =>
         Some ((fix each (l : list AccessibilityNode) : list AccessibilityNode :=
                  match l with
                  | [] => []
                  | c :: rest => erase_unrendered c :: each rest
                  end) cs)
     | None => None
     end)
    (uid n).

(** A node that carries nothing but attributes of that set. *)
Definition only_unrendered (p : option tristate) (m ml ms : option bool)
    (lv vmin vmax : option num) (cs : option (list AccessibilityNode))
    : AccessibilityNode :=
  mkNode None None None None None None None None None None
    m ml ms None None None None p lv vmin vmax
    None None None None cs None.

(** *** The line of a node, part by part

    Each part as an optional string, present when its attribute is
    present and truthy; the source's [parts] array is compared with the
    list of the parts that are present. *)

Definition somes (l : list (option string)) : list string :=
  flat_map (fun o => match o with Some x => [x] | None => [] end) l.

Definition spec_uid_part (n : AccessibilityNode) : option string :=
  match uid n with
  | Some (String a u) => Some ("[" ++ String a u ++ "]")
  | _ => None
  end.

Definition spec_role_part (n : AccessibilityNode) : option string :=
  match role n with
  | Some (String a r) => Some (String a r)
  | _ => None
  end.

Definition spec_name_part (n : AccessibilityNode) : option string :=
  match name n with
  | Some (String a x) => Some (dquote ++ String a x ++ dquote)
  | _ => None
  end.

Definition spec_value_part (n : AccessibilityNode) : option string :=
  match value n with
  | Some v =>
      if value_truthy (Some v)
      then Some ("value=" ++ dquote ++ value_to_string v ++ dquote)
      else None
  | None => None
  end.

Definition spec_state_list (n : AccessibilityNode) : list string :=
  somes
    [ if bool_truthy (disabled n) then Some "disabled" else None;
      match checked n with Some (TBool true) => Some "checked" | _ => None end;
      match checked n with Some TMixed => Some "mixed" | _ => None end;
      match expanded n with Some true => Some "expanded" | _ => None end;
      match expanded n with Some false => Some "collapsed" | _ => None end;
      if bool_truthy (selected n) then Some "selected" else None;
      if bool_truthy (focused n) then Some "focused" else None;
      if bool_truthy (required n) then Some "required" else None;
      if bool_truthy (readonly n) then Some "readonly" else None ].

Definition spec_states_part (n : AccessibilityNode) : option string :=
  match spec_state_list n with
  | [] => None
  | states => Some ("(" ++ join ", " states ++ ")")
  end.

Definition spec_parts (n : AccessibilityNode) : list string :=
  somes [ spec_uid_part n; spec_role_part n; spec_name_part n;
          spec_value_part n; spec_states_part n ].

Definition spec_line (n : AccessibilityNode) (depth : nat) : string :=
  match spec_parts n with
  | [] => ""
  | parts => repeat_string "  " depth ++ join " " parts ++ nl
  end.

Definition with_value (v : option jsvalue) (n : AccessibilityNode) : AccessibilityNode :=
  mkNode (role n) (name n) v (description n) (keyshortcuts n)
    (roledescription n) (valuetext n) (disabled n) (expanded n) (focused n)
    (modal n) (multiline n) (multiselectable n) (readonly n) (required n)
    (selected n) (checked n) (pressed n) (level n) (valuemin n) (valuemax n)
    (autocomplete n) (haspopup n) (invalid n) (orientation n) (children n) (uid n).

(** *** Nodes without a line *)

Definition is_none {A : Type} (o : option A) : bool :=
  match o with None => true | Some _ => false end.

(** A flag that is absent or false. *)
Definition flag_off (b : option bool) : bool :=
  match b with Some true => false | _ => true end.

Definition checked_off (c : option tristate) : bool :=
  match c with None | Some (TBool false) => true | _ => false end.

(** A node with [role], [name] and [value] absent and every state flag
    absent or false. *)
Definition no_role_name_value_state (n : AccessibilityNode) : bool :=
  is_none (role n) && is_none (name n) && is_none (value n) &&
  flag_off (disabled n) && checked_off (checked n) && flag_off (expanded n) &&
  flag_off (selected n) && flag_off (focused n) &&
  flag_off (required n) && flag_off (readonly n).

(** The same, with [uid] absent as well and [expanded] absent rather
    than false ([expanded === false] is rendered as "collapsed"). *)
Definition skipped_node (n : AccessibilityNode) : bool :=
  is_none (uid n) && is_none (expanded n) && no_role_name_value_state n.

(** *** The steps of a tool call *)

(** The optional navigation that opens both tools. *)
Definition navigation (url : option string) : M unit :=
  if str_truthy url
  then goto (opt_string url) DEFAULT_NAVIGATION_TIMEOUT
  else ret tt.

(** [error instanceof Error ? error.message : String(error)]. *)
Definition error_text (e : exn) : string :=
  match e with
  | JsError _ message => message
  | JsThrown s => s
  end.

(** The reply built from the end of a handler run. *)
Definition reply (r : outcome string * FirefoxBrowser * list event)
    : outcome ToolResponse * FirefoxBrowser * list event :=
  match r with
  | (Return s, b, log) => (Return {| text := s; isError := false |}, b, log)
  | (Throw e, b, log) =>
      (Return {| text := "Error: " ++ error_text e; isError := true |}, b, log)
  end.

Definition arguments_or_empty (args : option (list (string * json)))
    : list (string * json) :=
  match args with Some a => a | None => [] end.

(** The three texts [goto] makes from a failure of [page.goto]. *)
Definition navigation_failure_text (url : string) (timeout : num) (message : string)
    : string :=
  if string_includes message "Timeout" then
    "Navigation timeout after " ++ num_to_string timeout ++ "ms for " ++ url
  else if string_includes message "net::" then
    "Network error navigating to " ++ url ++ ": " ++ message
  else
    "Failed to navigate to " ++ url ++ ": " ++ message.

(** *** Sample trees and a sample world *)

Definition role_name_node (r x : string) (d : option bool)
    (cs : option (list AccessibilityNode)) : AccessibilityNode :=
  mkNode (Some r) (Some x) None None None None None d None None None None None
    None None None None None None None None None None None None cs None.

(** A single link. *)
Definition link_tree : AccessibilityNode :=
  role_name_node "link" "Skip to content" None None.

(** A root without attributes over a heading and a disabled button. *)
Definition heading_button_tree : AccessibilityNode :=
  mkNode None None None None None None None None None None None None None
    None None None None None None None None None None None None
    (Some [ role_name_node "heading" "Title" None None;
            role_name_node "button" "Sign in" (Some true) None ])
    None.

(** A node whose only attribute is [expanded: false]. *)
Definition collapsed_node : AccessibilityNode :=
  mkNode None None None None None None None None (Some false) None None None None
    None None None None None None None None None None None None None None.

(** A button that also carries attributes the formatter never reads. *)
Definition pressed_button : AccessibilityNode :=
  mkNode (Some "button") (Some "Bold") None None None None None None None None
    (Some false) (Some true) (Some false) None None None None (Some TMixed)
    (Some (num_of_N 3)) (Some (num_of_N 0)) (Some (num_of_N 10))
    None None None None None None.

Definition plain_button : AccessibilityNode :=
  role_name_node "button" "Bold" None None.

(** A slider whose value is the number 0. *)
Definition slider_at_zero : AccessibilityNode :=
  with_value (Some (VNum (num_of_N 0)))
    (mkNode (Some "slider") (Some "Volume") None (Some "loudness") None None None
       None None None None None None None None None None None None None None
       None None None (Some "horizontal") None None).

Definition sample_URL_protocol (url : string) : option string :=
  if String.prefix "http://" url then Some "http:"
  else if String.prefix "https://" url then Some "https:"
  else if String.prefix "ftp://" url then Some "ftp:"
  else None.

Definition visited (url : string) (log : list event) : bool :=
  existsb (fun e => match e with
                    | EPageGoto u _ => String.eqb u url
                    | _ => false
                    end) log.

(** A world with a few pages: one that times out, one that refuses the
    connection, one that fails otherwise, one without accessibility
    tree, and the sample trees elsewhere. *)
Definition sample_env : Collaborators := {|
  URL_protocol := sample_URL_protocol;
  zod_is_url := fun s => match sample_URL_protocol s with
                         | Some _ => true | None => false end;
  zod_message := fun issues =>
    match issues with
    | InvalidType path _ :: _ => "Invalid type at " ++ path
    | InvalidUrl path :: _ => "Invalid url at " ++ path
    | [] => "Invalid arguments"
    end;
  firefox_launch := fun _ _ => Return 0;
  browser_newPage := fun _ => Return 0;
  page_goto := fun _ url _ =>
    if String.eqb url "http://slow.example/" then
      Throw (JsError false "page.goto: Timeout 30000ms exceeded.")
    else if String.eqb url "http://down.example/" then
      Throw (JsError false "page.goto: net::ERR_CONNECTION_REFUSED")
    else if String.eqb url "http://odd.example/" then
      Throw (JsError false "page.goto: NS_ERROR_UNKNOWN_HOST")
    else Return tt;
  accessibility_snapshot := fun log =>
    if visited "http://blank.example/" log then Return None
    else if visited "http://login.example/" log then Return (Some heading_button_tree)
    else Return (Some link_tree);
  page_evaluate := fun _ script =>
    if String.eqb script "1+1" then Return (Some (JNum (num_of_N 2)))
    else Return None;
  JSON_stringify_2 := fun v =>
    match v with
    | Some (JNum x) => num_to_string x
    | Some (JStr s) => dquote ++ s ++ dquote
    | Some (JBool true) => "true"
    | Some (JBool false) => "false"
    | Some JNull => "null"
    | Some (JArr _) => "[]"
    | Some (JObj _) => "{}"
    | None => "undefined"
    end
|}.

Definition connected_browser : FirefoxBrowser :=
  {| browser := Some 0; page := Some 0; headless := false |}.

Definition fresh_browser : FirefoxBrowser :=
  {| browser := None; page := None; headless := false |}.

(** ** The rest of [src/browser.ts] and [src/server.ts] *)

(** [new FirefoxBrowser(headless = false)]. *)
Definition new_FirefoxBrowser (headless : bool) : FirefoxBrowser :=
  {| browser := None; page := None; headless := headless |}.


(** [FirefoxBrowser.close]; what [browser.close()] answers is given by
    [browser_close]. *)
Definition close (browser_close : list event -> outcome unit) : M unit :=
  b <- this ;;
  match browser b with
  | Some _ =>
      call EBrowserClose browser_close ;;;
      b <- this ;;
      assign {| browser := None; page := page b; headless := headless b |} ;;;
      b <- this ;;
      assign {| browser := browser b; page := None; headless := headless b |} ;;;
      console_error "Firefox closed"
  | None => ret tt
  end.

(** [FirefoxDevToolsServer.cleanup]. *)
Definition cleanup (browser_close : list event -> outcome unit) : M unit :=
  console_error (nl ++ "Cleaning up...") ;;;
  connected <- isConnected ;;
  if connected then close browser_close else ret tt.

(** A tool as the [ListToolsRequestSchema] handler lists it: name,
    description, and of the input schema the properties (name, type,
    description) and the required keys. *)
Record ToolDefinition : Type := {
  tool_name : string;
  tool_description : string;
  tool_properties : list (string * string * string);
  tool_required : list string
}.

Definition takeSnapshotTool : ToolDefinition := {|
  tool_name := "take_snapshot";
  tool_description :=
    "Take a text-based snapshot of the page using the accessibility tree. " ++
    "This provides a semantic representation of the page structure with unique IDs for interactive elements. " ++
    "Essential for understanding page state and enabling precise element interaction.";
  tool_properties :=
    [ ("url", "string", "URL to navigate to before taking snapshot (optional)");
      ("verbose", "boolean",
       "Include detailed accessibility information (default: false)") ];
  tool_required := []
|}.

Definition evaluateScriptTool : ToolDefinition := {|
  tool_name := "evaluate_script";
  tool_description :=
    "Execute custom JavaScript code in the page context. " ++
    "Useful for extracting specific DOM information, testing JavaScript functions, " ++
    "or getting data not available through the accessibility tree.";
  tool_properties :=
    [ ("script", "string",
       "JavaScript code to execute. Can be an expression (e.g., " ++ dquote
       ++ "document.title" ++ dquote
       ++ ") or a function body that returns a value.");
      ("url", "string", "URL to navigate to before executing script (optional)") ];
  tool_required := ["script"]
|}.

(** The handler registered for [ListToolsRequestSchema]. *)
Definition listTools : list ToolDefinition := [takeSnapshotTool; evaluateScriptTool].

(** *** Notions for the further properties *)

(** The browser and the page are set together or not at all. *)
Definition handles_paired (b : FirefoxBrowser) : bool :=
  match browser b, page b with
  | Some _, Some _ => true
  | None, None => true
  | _, _ => false
  end.

(** The tree with the eight verbose-only fields deleted at every node. *)
Fixpoint delete_verbose_everywhere (n : AccessibilityNode) : AccessibilityNode :=
  mkNode (role n) (name n) (value n) None None None None
    (disabled n) (expanded n) (focused n)
    (modal n) (multiline n) (multiselectable n) (readonly n) (required n)
    (selected n) (checked n) (pressed n) (level n) (valuemin n) (valuemax n)
    None None None None
    (match children n with
     | Some cs =>
         Some ((fix each (l : list AccessibilityNode) : list AccessibilityNode :=
                  match l with
                  | [] => []
                  | c :: rest => delete_verbose_everywhere c :: each rest
                  end) cs)
     | None => None
     end)
    (uid n).

(** The events of a log that are calls on the page or the browser
    process, console output aside. *)
Definition is_launch (e : event) : bool :=
  match e with EFirefoxLaunch _ => true | _ => false end.

Definition is_page_call (e : event) : bool :=
  match e with
  | EPageGoto _ _ | EAccessibilitySnapshot | EPageEvaluate _ => true
  | _ => false
  end.

(** A computation that leaves the browser object as it is and launches
    nothing: it only adds calls other than [firefox.launch] to the log. *)
Definition page_only {A : Type} (m : M A) : Prop :=
  forall b log,
    snd (fst (m b log)) = b /\
    exists extra, snd (m b log) = (log ++ extra)%list /\ filter is_launch extra = [].

(** The message of [getPage] on a browser without page. *)
Definition not_connected_text : string :=
  "Firefox not connected. Call connect() first.".

(** A tree with verbose-only fields at two levels. *)
Definition described_tree : AccessibilityNode :=
  mkNode (Some "main") (Some "Content") None (Some "the main region") None None None
    None None None None None None None None None None None None None None
    None None None None
    (Some [ mkNode (Some "textbox") (Some "Email") (Some (VStr "a@b.c"))
              (Some "your address") (Some "Alt+E") None None
              None None (Some true) None None None None (Some true) None None None
              None None None (Some "inline") None (Some "false") None None None;
            mkNode None None None (Some "decoration") None None None
              None None None None None None None None None None None
              None None None None None None None None None ])
    None.

(** A second sample world, where launching Firefox fails. *)
Definition no_firefox_env : Collaborators := {|
  URL_protocol := sample_URL_protocol;
  zod_is_url := fun _ => true;
  zod_message := fun _ => "Invalid arguments";
  firefox_launch := fun _ _ => Throw (JsError false "browserType.launch: Executable doesn't exist");
  browser_newPage := fun _ => Return 0;
  page_goto := fun _ _ _ => Return tt;
  accessibility_snapshot := fun _ => Return None;
  page_evaluate := fun _ _ => Throw (JsError false "page.evaluate: ReferenceError: x is not defined");
  JSON_stringify_2 := fun _ => "undefined"
|}.

(** A third one, where Firefox starts but no page can be opened and
    scripts fail. *)
Definition no_page_env : Collaborators := {|
  URL_protocol := sample_URL_protocol;
  zod_is_url := fun _ => true;
  zod_message := fun _ => "Invalid arguments";
  firefox_launch := fun _ _ => Return 7;
  browser_newPage := fun _ => Throw (JsError false "browser.newPage: Target closed");
  page_goto := fun _ _ _ => Return tt;
  accessibility_snapshot := fun _ => Return None;
  page_evaluate := fun _ _ => Throw (JsError false "page.evaluate: ReferenceError: x is not defined");
  JSON_stringify_2 := fun _ => "undefined"
|}.

(** * Properties *)

(** Structural induction over trees, with the hypothesis for every child. *)
Lemma node_induction (P : AccessibilityNode -> Prop) :
  (forall n, Forall P (child_list n) -> P n) -> forall n, P n.
Proof.
  intros step.
  fix IH 1.
  intros n. apply step.
  unfold child_list. destruct n as [? ? ? ? ? ? ? ? ? ? ? ? ? ? ? ? ? ? ? ? ? ? ? ? ? cs ?].
  simpl. destruct cs as [cs|]; [|constructor].
  induction cs as [|c cs IHcs]; constructor; [apply IH | exact IHcs].
Qed.

Lemma assignUIDs_eq (verbose : bool) (node : AccessibilityNode) (counter : UIDCounter) :
  assignUIDs verbose node counter =
  let '(node1, counter1) := annotate_node verbose node counter in
  match children node with
  | Some cs =>
      let '(cs', counter2) := forEach_counter (assignUIDs verbose) cs counter1 in
      (set_children (Some cs') node1, counter2)
  | None => (node1, counter1)
  end.
Proof.
  destruct node as [? ? ? ? ? ? ? ? ? ? ? ? ? ? ? ? ? ? ? ? ? ? ? ? ? cs ?].
  cbn [assignUIDs children].
  destruct (annotate_node verbose _ counter) as [node1 counter1].
  destruct cs as [cs|]; [|reflexivity].
  match goal with
  | |- (let '(_, _) := ?F cs counter1 in _) = _ =>
      assert (E : forall l c, F l c = forEach_counter (assignUIDs verbose) l c)
  end.
  { induction l as [|x l IHl]; intros c; [reflexivity|].
    cbn [forEach_counter]. destruct (assignUIDs verbose x c) as [x' c'].
    rewrite IHl. reflexivity. }
  rewrite E. reflexivity.
Qed.

Lemma preorder_eq (node : AccessibilityNode) :
  preorder node = node :: flat_map preorder (child_list node).
Proof.
  destruct node as [? ? ? ? ? ? ? ? ? ? ? ? ? ? ? ? ? ? ? ? ? ? ? ? ? cs ?].
  unfold child_list. cbn [preorder children]. f_equal.
  destruct cs as [cs|]; [|reflexivity].
  induction cs as [|c cs IHcs]; [reflexivity|].
  cbn [flat_map]. rewrite <- IHcs. reflexivity.
Qed.

Lemma preorder_depth_eq (node : AccessibilityNode) (depth : nat) :
  preorder_depth node depth =
  (node, depth) :: flat_map (fun c => preorder_depth c (S depth)) (child_list node).
Proof.
  destruct node as [? ? ? ? ? ? ? ? ? ? ? ? ? ? ? ? ? ? ? ? ? ? ? ? ? cs ?].
  unfold child_list. cbn [preorder_depth children]. f_equal.
  destruct cs as [cs|]; [|reflexivity].
  induction cs as [|c cs IHcs]; [reflexivity|].
  cbn [flat_map]. rewrite <- IHcs. reflexivity.
Qed.

(** ** Strings and numbers *)

Lemma dec_inj (a b : N) : dec a = dec b -> a = b.
Proof.
  unfold dec. intros E.
  assert (U : Some (N.to_uint a) = Some (N.to_uint b)).
  { rewrite <- !NilEmpty.usu. now rewrite E. }
  injection U as U.
  rewrite <- (DecimalN.Unsigned.of_to a), <- (DecimalN.Unsigned.of_to b).
  now rewrite U.
Qed.

Lemma uid_string_inj (a b : N) :
  Some ("uid_" ++ dec a) = Some ("uid_" ++ dec b) -> a = b.
Proof.
  cbn [append]. intros E. injection E as E. now apply dec_inj.
Qed.

Lemma string_app_assoc (a b c : string) : (a ++ b) ++ c = a ++ (b ++ c).
Proof.
  induction a as [|x a IHa]; cbn [append]; [reflexivity | now rewrite IHa].
Qed.

Lemma string_app_nil_r (a : string) : a ++ "" = a.
Proof.
  induction a as [|x a IHa]; cbn [append]; [reflexivity | now rewrite IHa].
Qed.

Lemma N_seq_app (start : N) (a b : nat) :
  N_seq start (a + b) = (N_seq start a ++ N_seq (start + N.of_nat a) b)%list.
Proof.
  revert start. induction a as [|a IHa]; intros start.
  - cbn. now rewrite N.add_0_r.
  - cbn [N_seq Nat.add app]. rewrite IHa.
    replace (start + N.of_nat (S a))%N with (start + 1 + N.of_nat a)%N by lia.
    reflexivity.
Qed.

Lemma N_seq_lower (start : N) (len : nat) (x : N) :
  In x (N_seq start len) -> (start <= x)%N.
Proof.
  revert start. induction len as [|len IH]; intros start; cbn [N_seq In].
  - tauto.
  - intros [<- | Hin]; [lia | apply IH in Hin; lia].
Qed.

Lemma N_seq_NoDup (start : N) (len : nat) : NoDup (N_seq start len).
Proof.
  revert start. induction len as [|len IH]; intros start; cbn [N_seq].
  - constructor.
  - constructor; [|apply IH].
    intros Hin. apply N_seq_lower in Hin. lia.
Qed.

Lemma uid_strings_NoDup (l : list N) :
  NoDup l -> NoDup (map (fun i => Some ("uid_" ++ dec i)) l).
Proof.
  induction 1 as [|x l Hx _ IH]; cbn [map]; constructor; [|exact IH].
  rewrite in_map_iff. intros (y & E & Hy).
  apply uid_string_inj in E. now subst y.
Qed.

(** ** The annotator *)

Lemma uid_guard_spec (verbose : bool) (n : AccessibilityNode) :
  uid_guard verbose n = true <->
  exists r, role n = Some r /\ r <> "" /\
            (In r interactiveRoles \/ verbose = true).
Proof.
  unfold uid_guard, includes. destruct (role n) as [r|].
  - rewrite andb_true_iff, orb_true_iff, existsb_exists. split.
    + intros [Ht Hc]. exists r. split; [reflexivity|]. split.
      * destruct r; [discriminate Ht | discriminate].
      * destruct Hc as [(x & Hx & E) | Hv]; [left | now right].
        apply String.eqb_eq in E. now subst x.
    + intros (r' & [= <-] & Hne & Hc). split.
      * destruct r; [now elim Hne | reflexivity].
      * destruct Hc as [Hin | Hv]; [left | now right].
        exists r. split; [exact Hin | apply String.eqb_refl].
  - split; [discriminate | intros (r & E & _); discriminate E].
Qed.

Lemma uid_guard_role (verbose : bool) (n n' : AccessibilityNode) :
  role n' = role n -> uid_guard verbose n' = uid_guard verbose n.
Proof. unfold uid_guard. now intros ->. Qed.

Lemma numbered_nil (verbose : bool) (c : UIDCounter) : numbered verbose [] [] c c.
Proof.
  unfold numbered. cbn. repeat split; [lia | constructor].
Qed.

Lemma numbered_app (verbose : bool) (a a' b b' : list AccessibilityNode)
    (c c1 c2 : UIDCounter) :
  numbered verbose a a' c c1 -> numbered verbose b b' c1 c2 ->
  numbered verbose (a ++ b) (a' ++ b') c c2.
Proof.
  unfold numbered. intros (Ec1 & Fa & Ua) (Ec2 & Fb & Ub).
  rewrite !filter_app, !length_app, !map_app, N_seq_app, map_app.
  repeat split.
  - lia.
  - now apply Forall2_app.
  - rewrite Ua, Ub. do 3 f_equal. lia.
Qed.

Lemma annotate_node_uid (verbose : bool) (n : AccessibilityNode) (c : UIDCounter) :
  if uid_guard verbose n
  then snd (annotate_node verbose n c) = (c + 1)%N /\
       uid (fst (annotate_node verbose n c)) = Some ("uid_" ++ dec (c + 1))
  else snd (annotate_node verbose n c) = c /\
       uid (fst (annotate_node verbose n c)) = uid n.
Proof.
  unfold annotate_node.
  destruct (uid_guard verbose n), verbose; split; reflexivity.
Qed.

Lemma numbered_node (verbose : bool) (n n' : AccessibilityNode) (c : UIDCounter) :
  role n' = role n ->
  uid n' = uid (fst (annotate_node verbose n c)) ->
  numbered verbose [n] [n'] c (snd (annotate_node verbose n c)).
Proof.
  intros Hr Hu. unfold numbered, uid_step. cbn [filter].
  rewrite (uid_guard_role verbose n n' Hr).
  pose proof (annotate_node_uid verbose n c) as A.
  destruct (uid_guard verbose n) eqn:G; destruct A as [A1 A2];
    rewrite A1; rewrite A2 in Hu; cbn [snd List.length map N_seq].
  - split; [lia|]. split.
    + constructor; [|constructor]. rewrite G. split; [exact Hr | eauto].
    + now rewrite Hu.
  - split; [lia|]. split.
    + constructor; [|constructor]. rewrite G. split; [exact Hr | exact Hu].
    + reflexivity.
Qed.

Lemma annotate_node_role (verbose : bool) (n : AccessibilityNode) (c : UIDCounter) :
  role (fst (annotate_node verbose n c)) = role n.
Proof.
  unfold annotate_node.
  destruct (uid_guard verbose n), verbose; reflexivity.
Qed.

Lemma assignUIDs_numbered (verbose : bool) (t : AccessibilityNode) :
  forall c,
    numbered verbose (preorder t) (preorder (fst (assignUIDs verbose t c)))
             c (snd (assignUIDs verbose t c)).
Proof.
  induction t as [t IH] using node_induction. intros c.
  rewrite assignUIDs_eq, (preorder_eq t).
  pose proof (annotate_node_role verbose t c) as Hrole.
  pose proof (numbered_node verbose t) as Hnode.
  destruct (annotate_node verbose t c) as [t1 c1] eqn:A. cbn [fst snd] in *.
  unfold child_list in *.
  destruct (children t) as [cs|] eqn:Ecs.
  - assert (L : forall c0,
               numbered verbose (flat_map preorder cs)
                 (flat_map preorder (fst (forEach_counter (assignUIDs verbose) cs c0)))
                 c0 (snd (forEach_counter (assignUIDs verbose) cs c0))).
    { clear - IH. induction cs as [|x cs IHcs]; intros c0.
      - apply numbered_nil.
      - cbn [forEach_counter]. inversion IH as [|? ? Hx Hcs]; subst.
        specialize (Hx c0).
        destruct (assignUIDs verbose x c0) as [x' c'].
        specialize (IHcs Hcs c').
        destruct (forEach_counter (assignUIDs verbose) cs c') as [rest' c''].
        cbn [fst snd flat_map] in *.
        eapply numbered_app; eassumption. }
    specialize (L c1).
    destruct (forEach_counter (assignUIDs verbose) cs c1) as [cs' c2].
    cbn [fst snd] in *.
    rewrite (preorder_eq (set_children (Some cs') t1)).
    unfold child_list. cbn [set_children children].
    change (t :: flat_map preorder cs) with ([t] ++ flat_map preorder cs)%list.
    match goal with
    | |- numbered _ _ (?x :: ?l) _ _ => change (x :: l) with ([x] ++ l)%list
    end.
    eapply numbered_app; [|exact L].
    specialize (Hnode (set_children (Some cs') t1) c).
    rewrite A in Hnode. cbn [fst snd] in Hnode.
    apply Hnode; [exact Hrole | reflexivity].
  - cbn [fst snd flat_map].
    rewrite (preorder_eq t1).
    assert (Ec1 : children t1 = None).
    { unfold annotate_node in A.
      destruct (uid_guard verbose t), verbose; cbn in A;
        injection A as <- _; cbn; exact Ecs. }
    unfold child_list. rewrite Ec1. cbn [flat_map].
    specialize (Hnode t1 c). rewrite A in Hnode. cbn [fst snd] in Hnode.
    apply Hnode; [exact Hrole | reflexivity].
Qed.

(** C1. Run on any tree with any verbose flag (counter at 0, as the
    orchestrator starts it), the annotator gives a uid of the form
    [uid_<n>] to exactly the nodes that pass the guard, that is, the
    nodes with a non-empty role that is interactive or with verbose set;
    every other node keeps the uid field it had.  Read in pre-order, the
    uids given out are [uid_1], ..., [uid_k], without gap or repeat,
    where [k] is the number of eligible nodes, and the counter ends at
    [k]. *)
Theorem assignUIDs_numbers_preorder (verbose : bool) (t : AccessibilityNode) :
  let t' := fst (assignUIDs verbose t 0%N) in
  let k := eligible_count verbose t in
  (forall n, uid_guard verbose n = true <->
             exists r, role n = Some r /\ r <> "" /\
                       (In r interactiveRoles \/ verbose = true)) /\
  snd (assignUIDs verbose t 0%N) = N.of_nat k /\
  Forall2 (uid_step verbose) (preorder t) (preorder t') /\
  assigned_uids verbose t' = map (fun i => Some ("uid_" ++ dec i)) (N_seq 1 k) /\
  NoDup (assigned_uids verbose t') /\
  List.length (assigned_uids verbose t') = k.
Proof.
  intros t' k.
  destruct (assignUIDs_numbered verbose t 0%N) as (Ec & F & U).
  fold t' in F, U. fold (eligible_count verbose t) in Ec, U. fold k in Ec, U.
  fold (assigned_uids verbose t') in U. change (0 + 1)%N with 1%N in U.
  split; [apply uid_guard_spec|].
  split; [rewrite Ec; lia|].
  split; [exact F|].
  split; [exact U|].
  rewrite U. split.
  - apply uid_strings_NoDup, N_seq_NoDup.
  - rewrite length_map. clear. generalize 1%N.
    induction k as [|k IH]; intros s; cbn [N_seq List.length]; [reflexivity|].
    now rewrite IH.
Qed.


Lemma annotate_node_frame (verbose : bool) (n : AccessibilityNode) (c : UIDCounter)
    (cs : option (list AccessibilityNode)) :
  let n' := set_children cs (fst (annotate_node verbose n c)) in
  kept_fields n n' /\
  (if verbose then verbose_fields_kept n n' else verbose_fields_absent n') /\
  (if uid_guard verbose n
   then exists i, uid n' = Some ("uid_" ++ dec i)
   else uid n' = uid n) /\
  children n' = cs /\
  children (fst (annotate_node verbose n c)) = children n.
Proof.
  unfold annotate_node, kept_fields, verbose_fields_kept, verbose_fields_absent.
  destruct (uid_guard verbose n), verbose; cbn [fst negb];
    repeat split; try reflexivity; eexists; reflexivity.
Qed.

Lemma forEach_counter_annotation (verbose : bool) (cs : list AccessibilityNode) :
  Forall (fun t => forall c, annotation_of verbose t (fst (assignUIDs verbose t c))) cs ->
  forall c,
    Forall2 (annotation_of verbose) cs
            (fst (forEach_counter (assignUIDs verbose) cs c)).
Proof.
  induction 1 as [|x cs Hx _ IH]; intros c; cbn [forEach_counter].
  - constructor.
  - specialize (Hx c). destruct (assignUIDs verbose x c) as [x' c'].
    specialize (IH c').
    destruct (forEach_counter (assignUIDs verbose) cs c') as [rest' c''].
    now constructor.
Qed.

(** C8. The annotator deletes and reorders nothing: the annotated tree
    has, node for node, the same children in the same order; a node's
    uid changes only where the guard holds; the eight verbose-only
    fields are removed from every node when [verbose] is false and are
    left as they were when it is true; no other field changes. *)
Theorem assignUIDs_frame (verbose : bool) (t : AccessibilityNode) (c : UIDCounter) :
  annotation_of verbose t (fst (assignUIDs verbose t c)).
Proof.
  revert c. induction t as [t IH] using node_induction. intros c.
  rewrite assignUIDs_eq.
  pose proof (annotate_node_frame verbose t c) as F.
  destruct (annotate_node verbose t c) as [t1 c1]. cbn [fst] in F.
  unfold child_list in IH.
  destruct (children t) as [cs|] eqn:Ecs.
  - pose proof (forEach_counter_annotation verbose cs IH c1) as Hcs.
    destruct (forEach_counter (assignUIDs verbose) cs c1) as [cs' c2].
    cbn [fst] in *.
    destruct (F (Some cs')) as (K & V & U & C & _).
    constructor; try assumption.
    rewrite Ecs, C. now constructor.
  - cbn [fst].
    destruct (F None) as (K & V & U & _ & C).
    assert (E : set_children None t1 = t1).
    { destruct t1. cbn [children] in C. subst. reflexivity. }
    rewrite E in *.
    constructor; try assumption.
    rewrite Ecs, C. constructor.
Qed.

Lemma Forall2_same_source {A B C : Type} (R : A -> B -> Prop) (S : A -> C -> Prop)
    (T : B -> C -> Prop) (l : list A) (lb : list B) (lc : list C) :
  (forall a b c, R a b -> S a c -> T b c) ->
  Forall2 R l lb -> Forall2 S l lc -> Forall2 T lb lc.
Proof.
  intros step HR. revert lc.
  induction HR as [|a b l lb Hab _ IH]; intros lc HS; inversion HS; subst.
  - constructor.
  - constructor; [eapply step; eassumption | now apply IH].
Qed.

Lemma uid_guard_verbose_mono (n : AccessibilityNode) :
  uid_guard false n = true -> uid_guard true n = true.
Proof.
  unfold uid_guard. destruct (role n) as [r|]; [|discriminate].
  rewrite !andb_true_iff, !orb_true_iff. intros [Hr _]. split; [exact Hr | now right].
Qed.

Lemma filter_length_mono {A : Type} (p q : A -> bool) (l : list A) :
  (forall x, p x = true -> q x = true) ->
  List.length (filter p l) <= List.length (filter q l).
Proof.
  intros Hpq. induction l as [|x l IH]; cbn [filter]; [lia|].
  destruct (p x) eqn:P.
  - rewrite (Hpq x P). cbn [List.length]. lia.
  - destruct (q x); cbn [List.length]; lia.
Qed.

Lemma N_seq_In (start : N) (len : nat) (x : N) :
  In x (N_seq start len) <-> (start <= x < start + N.of_nat len)%N.
Proof.
  revert start. induction len as [|len IH]; intros start; cbn [N_seq In].
  - lia.
  - rewrite IH. lia.
Qed.

Lemma assignUIDs_numbers_like (verbose : bool) (t : AccessibilityNode) :
  let t' := fst (assignUIDs verbose t 0%N) in
  Forall2 (uid_step verbose) (preorder t) (preorder t') /\
  assigned_uids verbose t' =
    map (fun i => Some ("uid_" ++ dec i)) (N_seq 1 (eligible_count verbose t)).
Proof.
  destruct (assignUIDs_numbered verbose t 0%N) as (_ & F & U).
  split; [exact F | exact U].
Qed.

(** C9. On one and the same input tree, a node that carries a uid after
    the run with [verbose = false] carries one after the run with
    [verbose = true] (nodes matched by their place in the tree; on a
    tree fresh from the browser, where no node has a uid yet, carrying
    one after the run is having received one).  The guard itself is
    monotone in [verbose], there are at most as many eligible nodes, and
    the uid strings given out without verbose are among those given out
    with it. *)
Theorem assignUIDs_verbose_subset (t : AccessibilityNode) :
  let tf := fst (assignUIDs false t 0%N) in
  let tv := fst (assignUIDs true t 0%N) in
  (forall n, uid_guard false n = true -> uid_guard true n = true) /\
  Forall2 (fun nf nv => uid nf <> None -> uid nv <> None) (preorder tf) (preorder tv) /\
  eligible_count false t <= eligible_count true t /\
  incl (assigned_uids false tf) (assigned_uids true tv).
Proof.
  intros tf tv.
  destruct (assignUIDs_numbers_like false t) as (Ff & Uf).
  destruct (assignUIDs_numbers_like true t) as (Fv & Uv).
  fold tf in Ff, Uf. fold tv in Fv, Uv.
  assert (Hle : eligible_count false t <= eligible_count true t).
  { apply filter_length_mono, uid_guard_verbose_mono. }
  split; [exact uid_guard_verbose_mono|].
  split; [|split; [exact Hle|]].
  - eapply Forall2_same_source; [|exact Ff|exact Fv].
    intros n nf nv [_ Sf] [_ Sv] Hnf.
    pose proof (uid_guard_verbose_mono n) as Hm.
    destruct (uid_guard false n).
    + rewrite (Hm eq_refl) in Sv. destruct Sv as [i ->]. discriminate.
    + destruct (uid_guard true n).
      * destruct Sv as [i ->]. discriminate.
      * congruence.
  - rewrite Uf, Uv. intros u. rewrite !in_map_iff.
    intros (i & <- & Hi). exists i. split; [reflexivity|].
    rewrite N_seq_In in *. lia.
Qed.


(** ** The formatter *)

Lemma formatSnapshot_eq (n : AccessibilityNode) (d : nat) :
  formatSnapshot n d =
  node_line n d ++ flatten (map (fun c => formatSnapshot c (S d)) (child_list n)).
Proof.
  destruct n as [? ? ? ? ? ? ? ? ? ? ? ? ? ? ? ? ? ? ? ? ? ? ? ? ? cs ?].
  unfold child_list. cbn [formatSnapshot children append].
  destruct cs as [cs|]; [|rewrite string_app_nil_r; reflexivity].
  assert (G : forall l r,
             (fix forEach (l : list AccessibilityNode) (result : string) : string :=
                match l with
                | [] => result
                | child :: rest => forEach rest (result ++ formatSnapshot child (d + 1))
                end) l r
             = r ++ flatten (map (fun c => formatSnapshot c (S d)) l)).
  { induction l as [|x l IHl]; intros r.
    - cbn [map flatten fold_right]. now rewrite string_app_nil_r.
    - rewrite IHl. cbn [map flatten fold_right].
      rewrite string_app_assoc, Nat.add_1_r. reflexivity. }
  destruct cs as [|c cs]; [rewrite string_app_nil_r; reflexivity|].
  exact (G (c :: cs) _).
Qed.

Lemma flatten_app (a b : list string) : flatten (a ++ b) = flatten a ++ flatten b.
Proof.
  induction a as [|x a IH]; cbn; [reflexivity|].
  fold (flatten (a ++ b)). fold (flatten a). now rewrite IH, string_app_assoc.
Qed.

Lemma formatSnapshot_preorder (n : AccessibilityNode) :
  forall d,
    formatSnapshot n d =
    flatten (map (fun p => node_line (fst p) (snd p)) (preorder_depth n d)).
Proof.
  induction n as [n IH] using node_induction. intros d.
  rewrite formatSnapshot_eq, preorder_depth_eq.
  cbn [map flatten fold_right fst snd]. f_equal.
  fold (flatten (map (fun p => node_line (fst p) (snd p))
          (flat_map (fun c => preorder_depth c (S d)) (child_list n)))).
  induction IH as [|c cs Hc _ IHcs]; [reflexivity|].
  cbn [map flat_map]. rewrite map_app, flatten_app, <- Hc, <- IHcs. reflexivity.
Qed.

Lemma node_states_spec (n : AccessibilityNode) : node_states n = spec_state_list n.
Proof.
  unfold node_states, spec_state_list, somes, push.
  destruct (bool_truthy (disabled n)), (checked n) as [[[|]|]|],
    (expanded n) as [[|]|], (bool_truthy (selected n)), (bool_truthy (focused n)),
    (bool_truthy (required n)), (bool_truthy (readonly n)); reflexivity.
Qed.

Lemma node_parts_spec (n : AccessibilityNode) : node_parts n = spec_parts n.
Proof.
  unfold node_parts, spec_parts, spec_uid_part, spec_role_part, spec_name_part,
    spec_value_part, spec_states_part, somes, push.
  rewrite node_states_spec.
  destruct (spec_state_list n) as [|s l], (uid n) as [[|? ?]|],
    (role n) as [[|? ?]|], (name n) as [[|? ?]|], (value n) as [[[|? ?]|x]|];
    try destruct (num_truthy x) eqn:T;
    cbn [str_truthy value_truthy opt_string opt_value_string flat_map app
         List.length Nat.ltb Nat.leb value_to_string];
    rewrite ?T; reflexivity.
Qed.

Lemma node_line_spec (n : AccessibilityNode) (d : nat) : node_line n d = spec_line n d.
Proof.
  unfold node_line, spec_line. rewrite node_parts_spec.
  destruct (spec_parts n); reflexivity.
Qed.

(** C3. The line of a node is made of the parts [[uid]], role, quoted
    name, [value="<value>"] and the parenthesized state list, in that
    order, each present or not, joined by single spaces, after the
    indentation and before a newline.  The value part is there exactly
    when the value is present and truthy: with the value [0] or the
    empty string the node renders as it would without any value. *)
Theorem formatSnapshot_line_composition (n : AccessibilityNode) (d : nat) :
  node_parts n = spec_parts n /\
  node_line n d = spec_line n d /\
  formatSnapshot n d =
    spec_line n d ++ flatten (map (fun c => formatSnapshot c (S d)) (child_list n)) /\
  (spec_value_part n <> None <-> value_truthy (value n) = true) /\
  node_parts (with_value (Some (VNum (num_of_N 0))) n) = node_parts (with_value None n) /\
  node_parts (with_value (Some (VStr "")) n) = node_parts (with_value None n).
Proof.
  split; [apply node_parts_spec|].
  split; [apply node_line_spec|].
  split; [rewrite <- node_line_spec; apply formatSnapshot_eq|].
  split.
  - unfold spec_value_part.
    destruct (value n) as [v|]; [|cbn; split; [congruence | discriminate]].
    destruct (value_truthy (Some v)); split; congruence.
  - unfold node_parts, with_value.
    cbn [value uid role name value_truthy str_truthy].
    rewrite num_zero_falsy. split; reflexivity.
Qed.

Lemma skipped_node_parts (n : AccessibilityNode) :
  skipped_node n = true -> node_parts n = [].
Proof.
  unfold skipped_node, no_role_name_value_state, node_parts, node_states.
  destruct (uid n), (expanded n), (role n), (name n), (value n);
    try discriminate.
  destruct (disabled n) as [[|]|], (checked n) as [[[|]|]|],
    (selected n) as [[|]|], (focused n) as [[|]|],
    (required n) as [[|]|], (readonly n) as [[|]|];
    (discriminate || reflexivity).
Qed.

(** C4 (as amended). A node with [uid], [role], [name] and [value]
    absent, [expanded] absent and every other state flag absent or
    false gets no line of its own; its children are still visited in
    order, one level deeper, and the text is the concatenation, in
    pre-order, of the lines of its descendants, where every node with a
    part gets a line indented by two spaces per its own depth. *)
Theorem formatSnapshot_skips_empty_node (n : AccessibilityNode) (d : nat) :
  skipped_node n = true ->
  node_line n d = "" /\
  formatSnapshot n d = flatten (map (fun c => formatSnapshot c (S d)) (child_list n)) /\
  formatSnapshot n d =
    flatten (map (fun p => node_line (fst p) (snd p))
               (flat_map (fun c => preorder_depth c (S d)) (child_list n))) /\
  Forall (fun p => node_parts (fst p) <> [] ->
                   node_line (fst p) (snd p) =
                   repeat_string "  " (snd p) ++ join " " (node_parts (fst p)) ++ nl)
         (preorder_depth n d).
Proof.
  intros Hs.
  assert (L : node_line n d = "").
  { unfold node_line. now rewrite (skipped_node_parts n Hs). }
  split; [exact L|].
  split; [rewrite formatSnapshot_eq, L; reflexivity|].
  split.
  - rewrite formatSnapshot_preorder, preorder_depth_eq.
    cbn [map flatten fold_right fst snd]. rewrite L. reflexivity.
  - apply Forall_forall. intros [m dm] _ Hm. cbn [fst snd] in *.
    unfold node_line. destruct (node_parts m); [now elim Hm | reflexivity].
Qed.

Lemma erase_unrendered_eq (n : AccessibilityNode) :
  erase_unrendered n =
  mkNode (role n) (name n) (value n) (description n) (keyshortcuts n)
    (roledescription n) (valuetext n) (disabled n) (expanded n) (focused n)
    None None None (readonly n) (required n)
    (selected n) (checked n) None None None None
    (autocomplete n) (haspopup n) (invalid n) (orientation n)
    (option_map (map erase_unrendered) (children n))
    (uid n).
Proof.
  destruct n as [? ? ? ? ? ? ? ? ? ? ? ? ? ? ? ? ? ? ? ? ? ? ? ? ? cs ?].
  cbn [erase_unrendered role name value description keyshortcuts roledescription
       valuetext disabled expanded focused readonly required selected checked
       autocomplete haspopup invalid orientation children uid].
  reflexivity.
Qed.

Lemma erase_unrendered_parts (n : AccessibilityNode) :
  node_parts (erase_unrendered n) = node_parts n /\
  node_states (erase_unrendered n) = node_states n.
Proof. rewrite erase_unrendered_eq. split; reflexivity. Qed.

Lemma erase_unrendered_format (n : AccessibilityNode) :
  forall d, formatSnapshot (erase_unrendered n) d = formatSnapshot n d.
Proof.
  induction n as [n IH] using node_induction. intros d.
  rewrite !formatSnapshot_eq. f_equal.
  - unfold node_line. now rewrite (proj1 (erase_unrendered_parts n)).
  - rewrite erase_unrendered_eq. unfold child_list in *. cbn [children].
    destruct (children n) as [cs|]; [|reflexivity].
    cbn [option_map]. rewrite map_map. f_equal.
    induction IH as [|c cs Hc _ IHcs]; [reflexivity|].
    cbn [map]. now rewrite Hc, IHcs.
Qed.

(** C10. The attributes [pressed], [modal], [multiline],
    [multiselectable], [level], [valuemin] and [valuemax] do not reach
    the formatted text: two trees that differ only in these attributes,
    at any of their nodes, have the same parts, the same state list and
    the same text; and a node that carries only attributes of this set
    has no line of its own. *)
Theorem formatSnapshot_ignores_unrendered (n1 n2 : AccessibilityNode) (d : nat) :
  erase_unrendered n1 = erase_unrendered n2 ->
  formatSnapshot n1 d = formatSnapshot n2 d /\
  node_parts n1 = node_parts n2 /\
  node_states n1 = node_states n2 /\
  (forall p m ml ms lv vmin vmax,
     formatSnapshot (only_unrendered p m ml ms lv vmin vmax None) d = "" /\
     forall cs,
       node_line (only_unrendered p m ml ms lv vmin vmax cs) d = "" /\
       formatSnapshot (only_unrendered p m ml ms lv vmin vmax cs) d =
         flatten (map (fun c => formatSnapshot c (S d))
                    (match cs with Some l => l | None => [] end))).
Proof.
  intros E.
  split; [now rewrite <- (erase_unrendered_format n1), E, erase_unrendered_format|].
  split; [now rewrite <- (proj1 (erase_unrendered_parts n1)), E,
                      (proj1 (erase_unrendered_parts n2))|].
  split; [now rewrite <- (proj2 (erase_unrendered_parts n1)), E,
                      (proj2 (erase_unrendered_parts n2))|].
  intros p m ml ms lv vmin vmax. split; [reflexivity|].
  intros cs. split; [reflexivity|].
  rewrite formatSnapshot_eq. reflexivity.
Qed.


(** ** The orchestrator *)

Lemma assignUIDs_counter (verbose : bool) (t : AccessibilityNode) :
  snd (assignUIDs verbose t 0%N) = N.of_nat (eligible_count verbose t).
Proof.
  destruct (assignUIDs_numbered verbose t 0%N) as (Ec & _ & _).
  rewrite Ec. unfold eligible_count. lia.
Qed.

Lemma N_seq_length (start : N) (len : nat) : List.length (N_seq start len) = len.
Proof.
  revert start. induction len as [|len IH]; intros start; cbn [N_seq List.length];
    [reflexivity | now rewrite IH].
Qed.

Lemma assigned_uids_length (verbose : bool) (t : AccessibilityNode) :
  List.length (assigned_uids verbose (fst (assignUIDs verbose t 0%N))) =
  eligible_count verbose t.
Proof.
  rewrite (proj2 (assignUIDs_numbers_like verbose t)).
  now rewrite length_map, N_seq_length.
Qed.

Lemma takeSnapshot_run (pg : Page) (args : TakeSnapshotArgs)
    (b b1 : FirefoxBrowser) (log log1 : list event) :
  navigation (ts_url args) b log = (Return tt, b1, log1) ->
  let log2 := (log1 ++ [EConsoleError "Taking accessibility snapshot..."])%list in
  takeSnapshot pg args b log =
  match accessibility_snapshot env log2 with
  | Return None =>
      (Return "No accessibility tree available for this page.",
       b1, (log2 ++ [EAccessibilitySnapshot])%list)
  | Return (Some t) =>
      let verbose := match ts_verbose args with Some v => v | None => false end in
      (Return ("Accessibility Snapshot ("
               ++ dec (snd (assignUIDs verbose t 0%N))
               ++ " interactive elements)" ++ nl
               ++ repeat_string "=" 60 ++ nl
               ++ formatSnapshot (fst (assignUIDs verbose t 0%N)) 0),
       b1, (log2 ++ [EAccessibilitySnapshot])%list)
  | Throw e => (Throw e, b1, (log2 ++ [EAccessibilitySnapshot])%list)
  end.
Proof.
  intros Nav log2. unfold takeSnapshot, bind.
  unfold navigation in Nav. rewrite Nav.
  unfold console_error, call. fold log2.
  destruct (accessibility_snapshot env log2) as [[t|]|e]; try reflexivity.
  destruct (assignUIDs _ t 0%N) as [t' k]. cbn [fst snd ret].
  now rewrite !string_app_assoc.
Qed.

(** C2. When the tree retrieval of a take_snapshot call yields a tree,
    the text returned is the header line
    [Accessibility Snapshot (<k> interactive elements)], a line of
    sixty [=] and the formatted annotated tree, where [<k>] is the
    number of uids the annotator assigned in this call. *)
Theorem takeSnapshot_header (pg : Page) (args : TakeSnapshotArgs)
    (b b1 : FirefoxBrowser) (log log1 : list event) (t : AccessibilityNode) :
  navigation (ts_url args) b log = (Return tt, b1, log1) ->
  accessibility_snapshot env
    (log1 ++ [EConsoleError "Taking accessibility snapshot..."])%list
    = Return (Some t) ->
  let verbose := match ts_verbose args with Some v => v | None => false end in
  let t' := fst (assignUIDs verbose t 0%N) in
  let k := List.length (assigned_uids verbose t') in
  fst (fst (takeSnapshot pg args b log)) =
    Return ("Accessibility Snapshot (" ++ dec (N.of_nat k) ++ " interactive elements)" ++ nl
            ++ "============================================================" ++ nl
            ++ formatSnapshot t' 0) /\
  k = eligible_count verbose t /\
  snd (assignUIDs verbose t 0%N) = N.of_nat k.
Proof.
  intros Nav Snap verbose t' k.
  assert (Ek : k = eligible_count verbose t) by apply assigned_uids_length.
  rewrite (takeSnapshot_run pg args b b1 log log1 Nav), Snap.
  cbn [fst]. fold verbose. rewrite assignUIDs_counter, <- Ek.
  repeat split.
Qed.

Lemma callTool_take_snapshot (args : option (list (string * json)))
    (b b0 : FirefoxBrowser) (log log0 : list event) (pg : Page) :
  ensureConnected b log = (Return tt, b0, log0) ->
  page b0 = Some pg ->
  callTool "take_snapshot" args b log =
  match takeSnapshotSchema_parse (arguments_or_empty args) b0 log0 with
  | (Return validatedArgs, b1, log1) => reply (takeSnapshot pg validatedArgs b1 log1)
  | (Throw e, b1, log1) => reply (Throw e, b1, log1)
  end.
Proof.
  intros Conn Pg. unfold callTool, try_catch, bind at 1. rewrite Conn.
  unfold bind at 1. unfold getPage at 1, bind at 1, this at 1. rewrite Pg.
  unfold ret at 1. cbn [String.eqb Ascii.eqb Bool.eqb andb].
  unfold bind at 1, bind at 1. fold (arguments_or_empty args).
  destruct (takeSnapshotSchema_parse (arguments_or_empty args) b0 log0)
    as [[[v|e] b1] log1]; [|reflexivity].
  destruct (takeSnapshot pg v b1 log1) as [[[s|e] b2] log2]; reflexivity.
Qed.

Lemma callTool_evaluate_script (args : option (list (string * json)))
    (b b0 : FirefoxBrowser) (log log0 : list event) (pg : Page) :
  ensureConnected b log = (Return tt, b0, log0) ->
  page b0 = Some pg ->
  callTool "evaluate_script" args b log =
  match evaluateScriptSchema_parse (arguments_or_empty args) b0 log0 with
  | (Return validatedArgs, b1, log1) => reply (evaluateScript pg validatedArgs b1 log1)
  | (Throw e, b1, log1) => reply (Throw e, b1, log1)
  end.
Proof.
  intros Conn Pg. unfold callTool, try_catch, bind at 1. rewrite Conn.
  unfold bind at 1. unfold getPage at 1, bind at 1, this at 1. rewrite Pg.
  unfold ret at 1. cbn [String.eqb Ascii.eqb Bool.eqb andb].
  unfold bind at 1, bind at 1. fold (arguments_or_empty args).
  destruct (evaluateScriptSchema_parse (arguments_or_empty args) b0 log0)
    as [[[v|e] b1] log1]; [|reflexivity].
  destruct (evaluateScript pg v b1 log1) as [[[s|e] b2] log2]; reflexivity.
Qed.

(** C6. When the tree retrieval of a take_snapshot call yields no tree,
    the call returns (it does not throw) the sentinel text alone, with
    no header and no separator, and the dispatcher passes it on as an
    ordinary reply, without the error flag. *)
Theorem takeSnapshot_no_tree (args : option (list (string * json)))
    (validatedArgs : TakeSnapshotArgs) (pg : Page)
    (b b0 b1 : FirefoxBrowser) (log log0 log1 : list event) :
  ensureConnected b log = (Return tt, b0, log0) ->
  page b0 = Some pg ->
  takeSnapshotSchema_parse (arguments_or_empty args) b0 log0
    = (Return validatedArgs, b0, log0) ->
  navigation (ts_url validatedArgs) b0 log0 = (Return tt, b1, log1) ->
  accessibility_snapshot env
    (log1 ++ [EConsoleError "Taking accessibility snapshot..."])%list
    = Return None ->
  fst (fst (takeSnapshot pg validatedArgs b0 log0)) =
    Return "No accessibility tree available for this page." /\
  fst (fst (callTool "take_snapshot" args b log)) =
    Return {| text := "No accessibility tree available for this page.";
              isError := false |}.
Proof.
  intros Conn Pg Parse Nav Snap.
  rewrite (callTool_take_snapshot args b b0 log log0 pg Conn Pg), Parse.
  rewrite (takeSnapshot_run pg validatedArgs b0 b1 log0 log1 Nav), Snap.
  split; reflexivity.
Qed.

(** ** Validation and dispatch *)

Lemma takeSnapshotSchema_parse_pure (a : list (string * json)) :
  exists r, forall b log, takeSnapshotSchema_parse a b log = (r, b, log).
Proof.
  unfold takeSnapshotSchema_parse.
  destruct (zod_string_url_optional "url" _), (zod_boolean_optional "verbose" _);
    eexists; intros b log; reflexivity.
Qed.

Lemma evaluateScriptSchema_parse_pure (a : list (string * json)) :
  exists r, forall b log, evaluateScriptSchema_parse a b log = (r, b, log).
Proof.
  unfold evaluateScriptSchema_parse.
  destruct (zod_string "script" _), (zod_string_url_optional "url" _);
    eexists; intros b log; reflexivity.
Qed.

(** C5 (as amended). In a call to either tool the arguments go through
    the tool's schema before its handler: when the schema rejects them
    the reply is the error text with the error flag and nothing more is
    done (the log and the browser are as connecting left them), and
    otherwise the handler runs on the validated arguments.  For
    evaluate_script the schema requires [script] to be a string: it is
    rejected when absent or of another type, and any string, the empty
    one included, is accepted. *)
Theorem callTool_validates_before_handler (args : option (list (string * json)))
    (b b0 : FirefoxBrowser) (log log0 : list event) (pg : Page) :
  ensureConnected b log = (Return tt, b0, log0) ->
  page b0 = Some pg ->
  let a := arguments_or_empty args in
  (exists r,
     (forall b' log', takeSnapshotSchema_parse a b' log' = (r, b', log')) /\
     callTool "take_snapshot" args b log =
       match r with
       | Return validatedArgs => reply (takeSnapshot pg validatedArgs b0 log0)
       | Throw e => (Return {| text := "Error: " ++ error_text e; isError := true |},
                     b0, log0)
       end) /\
  (exists r,
     (forall b' log', evaluateScriptSchema_parse a b' log' = (r, b', log')) /\
     callTool "evaluate_script" args b log =
       match r with
       | Return validatedArgs => reply (evaluateScript pg validatedArgs b0 log0)
       | Throw e => (Return {| text := "Error: " ++ error_text e; isError := true |},
                     b0, log0)
       end) /\
  (forall b' log' v,
     evaluateScriptSchema_parse a b' log' = (Return v, b', log') ->
     get_field "script" a = Some (JStr (es_script v))) /\
  (forall s,
     get_field "script" a = Some (JStr s) -> get_field "url" a = None ->
     forall b' log',
       evaluateScriptSchema_parse a b' log' =
       (Return {| es_script := s; es_url := None |}, b', log')).
Proof.
  intros Conn Pg a.
  split; [|split; [|split]].
  - destruct (takeSnapshotSchema_parse_pure a) as [r Hr]. exists r.
    split; [exact Hr|].
    rewrite (callTool_take_snapshot args b b0 log log0 pg Conn Pg).
    fold a. rewrite Hr. destruct r; reflexivity.
  - destruct (evaluateScriptSchema_parse_pure a) as [r Hr]. exists r.
    split; [exact Hr|].
    rewrite (callTool_evaluate_script args b b0 log log0 pg Conn Pg).
    fold a. rewrite Hr. destruct r; reflexivity.
  - intros b' log' v. unfold evaluateScriptSchema_parse, zod_string.
    destruct (get_field "script" a) as [[| | |s| |]|];
      destruct (zod_string_url_optional "url" _); cbn; try discriminate.
    intros [= <-]. reflexivity.
  - intros s Hs Hu b' log'. unfold evaluateScriptSchema_parse, zod_string,
      zod_string_url_optional. rewrite Hs, Hu. reflexivity.
Qed.

(** ** Navigation *)

Lemma includes_http (p : string) :
  includes ["http:"; "https:"] p = true <-> p = "http:" \/ p = "https:".
Proof.
  unfold includes. cbn [existsb]. rewrite !orb_true_iff, !String.eqb_eq.
  intuition discriminate.
Qed.

(** C7. On a connected browser, [goto] with a URL whose scheme is
    neither http nor https throws the invalid-protocol error, which
    names the scheme, and does nothing else: no call reaches the page.
    A malformed URL, a timeout, a network-level failure and any other
    navigation failure each throw a message of their own, and these
    five messages are pairwise different whatever the URLs, scheme,
    timeout and cause they mention. *)
Theorem goto_failures (url : string) (timeout : num)
    (b : FirefoxBrowser) (log : list event) (pg : Page) :
  page b = Some pg ->
  (forall p, includes ["http:"; "https:"] p = false <->
             p <> "http:" /\ p <> "https:") /\
  (forall p, URL_protocol env url = Some p ->
     includes ["http:"; "https:"] p = false ->
     goto url timeout b log =
     (Throw (JsError false
        ("Invalid protocol: " ++ p ++ ". Only HTTP and HTTPS are supported.")),
      b, log)) /\
  (URL_protocol env url = None ->
     goto url timeout b log =
     (Throw (JsError false ("Invalid URL format: " ++ url)), b, log)) /\
  (forall p, URL_protocol env url = Some p ->
     includes ["http:"; "https:"] p = true ->
     let log1 := (log ++ [EConsoleError ("Navigating to " ++ url)])%list in
     let log2 := (log1 ++ [EPageGoto url timeout])%list in
     goto url timeout b log =
     match page_goto env log1 url timeout with
     | Return _ => (Return tt, b, log2)
     | Throw (JsError _ message) =>
         (Throw (JsError false (navigation_failure_text url timeout message)), b, log2)
     | Throw (JsThrown v) => (Throw (JsThrown v), b, log2)
     end) /\
  (forall message,
     navigation_failure_text url timeout message =
       "Navigation timeout after " ++ num_to_string timeout ++ "ms for " ++ url \/
     navigation_failure_text url timeout message =
       "Network error navigating to " ++ url ++ ": " ++ message \/
     navigation_failure_text url timeout message =
       "Failed to navigate to " ++ url ++ ": " ++ message) /\
  (forall p u1 u2 u3 u4 t m3 m4,
     let invalid_protocol :=
       "Invalid protocol: " ++ p ++ ". Only HTTP and HTTPS are supported." in
     let malformed := "Invalid URL format: " ++ u1 in
     let timed_out := "Navigation timeout after " ++ t ++ "ms for " ++ u2 in
     let network := "Network error navigating to " ++ u3 ++ ": " ++ m3 in
     let generic := "Failed to navigate to " ++ u4 ++ ": " ++ m4 in
     invalid_protocol <> malformed /\ invalid_protocol <> timed_out /\
     invalid_protocol <> network /\ invalid_protocol <> generic /\
     malformed <> timed_out /\ malformed <> network /\ malformed <> generic /\
     timed_out <> network /\ timed_out <> generic /\ network <> generic).
Proof.
  intros Pg.
  assert (G : getPage b log = (Return pg, b, log)).
  { unfold getPage, bind, this. now rewrite Pg. }
  split; [|split; [|split; [|split; [|split]]]].
  - intros p. pose proof (includes_http p) as I.
    destruct (includes ["http:"; "https:"] p).
    + split; [discriminate|]. intros [H1 H2].
      destruct (proj1 I eq_refl); contradiction.
    + split; [|reflexivity]. intros _.
      split; intros E;
        [ assert (X : false = true) by (apply I; now left)
        | assert (X : false = true) by (apply I; now right) ];
        discriminate X.
  - intros p Hp I. unfold goto, bind at 1. rewrite G.
    unfold bind at 1, try_catch at 1. rewrite Hp, I. reflexivity.
  - intros Hp. unfold goto, bind at 1. rewrite G.
    unfold bind at 1, try_catch at 1. rewrite Hp. reflexivity.
  - intros p Hp Hs log1 log2. unfold goto, bind at 1. rewrite G.
    unfold bind at 1, try_catch at 1. rewrite Hp, Hs. cbn [negb ret].
    unfold bind at 1, console_error, call at 1, try_catch, call.
    fold log1. fold log2. unfold navigation_failure_text.
    destruct (page_goto env log1 url timeout) as [[]|[tf message|v]]; try reflexivity.
    destruct (string_includes message "Timeout"); [reflexivity|].
    destruct (string_includes message "net::"); reflexivity.
  - intros message. unfold navigation_failure_text.
    destruct (string_includes message "Timeout"); [now left|].
    destruct (string_includes message "net::"); [right; now left | right; now right].
  - intros p u1 u2 u3 u4 t m3 m4. cbn [append].
    repeat split; intros E; discriminate E.
Qed.


(** ** The browser object: connect, close, cleanup *)

Lemma connect_connected (b : FirefoxBrowser) (log : list event) (p : Page) :
  page b = Some p -> connect b log = (Return p, b, log).
Proof. intros Pg. unfold connect, bind, this. now rewrite Pg. Qed.

Lemma connect_run (b : FirefoxBrowser) (log : list event) :
  page b = None ->
  let log1 := (log ++ [EConsoleError "Launching Firefox..."])%list in
  let log2 := (log1 ++ [EFirefoxLaunch (headless b)])%list in
  let log3 := (log2 ++ [EBrowserNewPage])%list in
  let closed := {| browser := None; page := None; headless := headless b |} in
  connect b log =
  match firefox_launch env log1 (headless b) with
  | Throw e =>
      match browser b with
      | Some _ => (Throw e, closed, (log2 ++ [EBrowserClose])%list)
      | None => (Throw e, b, log2)
      end
  | Return br =>
      match browser_newPage env log2 with
      | Throw e => (Throw e, closed, (log3 ++ [EBrowserClose])%list)
      | Return p =>
          (Return p, {| browser := Some br; page := Some p; headless := headless b |},
           (log3 ++ [EConsoleError "Firefox ready"])%list)
      end
  end.
Proof.
  intros Pg log1 log2 log3 closed. unfold connect, bind at 1, this at 1. rewrite Pg.
  unfold try_catch, bind, console_error, call, this, assign, ret, throw.
  fold log1. fold log2.
  destruct (firefox_launch env log1 (headless b)) as [br|e].
  - cbn [page browser headless]. rewrite Pg. fold log3.
    destruct (browser_newPage env log2) as [p|e]; reflexivity.
  - destruct b as [[br|] pg hd]; cbn in *; subst; reflexivity.
Qed.

(** X1. After a [connect] that returns, the page it returned is the one
    stored: [isConnected] answers true, and [getPage] or a second
    [connect] give the same page without any further call. *)
Theorem connect_then_connected (b b1 : FirefoxBrowser) (log log1 : list event) (p : Page) :
  connect b log = (Return p, b1, log1) ->
  page b1 = Some p /\
  isConnected b1 log1 = (Return true, b1, log1) /\
  getPage b1 log1 = (Return p, b1, log1) /\
  connect b1 log1 = (Return p, b1, log1).
Proof.
  intros C.
  assert (Pg : page b1 = Some p).
  { destruct (page b) as [q|] eqn:Pg.
    - rewrite (connect_connected b log q Pg) in C. injection C as <- <- _. exact Pg.
    - rewrite (connect_run b log Pg) in C.
      destruct (firefox_launch env _ (headless b)) as [br|e].
      + destruct (browser_newPage env _) as [q|e]; [|discriminate C].
        injection C as <- <- _. reflexivity.
      + destruct (browser b); discriminate C. }
  split; [exact Pg|].
  split; [unfold isConnected, bind, this, ret; now rewrite Pg|].
  split; [unfold getPage, bind, this, ret; now rewrite Pg|].
  now apply connect_connected.
Qed.


(** X3. A [connect] that throws on a browser without page leaves the
    object with neither browser nor page and rethrows the error of the
    call that failed, unchanged; when Firefox had been launched and the
    page could not be opened, the launched browser has been closed. *)
Theorem connect_failure_cleans_up (b b1 : FirefoxBrowser) (log log1 : list event) (e : exn) :
  page b = None ->
  connect b log = (Throw e, b1, log1) ->
  browser b1 = None /\ page b1 = None /\ headless b1 = headless b /\
  let log_launch := (log ++ [EConsoleError "Launching Firefox..."])%list in
  let log_page := (log_launch ++ [EFirefoxLaunch (headless b)])%list in
  (firefox_launch env log_launch (headless b) = Throw e \/
   (exists br, firefox_launch env log_launch (headless b) = Return br) /\
   browser_newPage env log_page = Throw e /\
   log1 = (log_page ++ [EBrowserNewPage; EBrowserClose])%list).
Proof.
  intros Pg C. rewrite (connect_run b log Pg) in C. cbv zeta.
  destruct (firefox_launch env _ (headless b)) as [br|e'].
  - destruct (browser_newPage env _) as [q|e'']; [discriminate C|].
    injection C as <- <- <-. repeat split.
    right. split; [now exists br|]. split; [reflexivity|].
    now rewrite <- !app_assoc.
  - destruct (browser b) eqn:Br; injection C as <- <- <-;
      repeat split; try assumption; now left.
Qed.

Lemma close_run (browser_close : list event -> outcome unit)
    (b : FirefoxBrowser) (log : list event) :
  close browser_close b log =
  match browser b with
  | None => (Return tt, b, log)
  | Some _ =>
      match browser_close log with
      | Return _ =>
          (Return tt, {| browser := None; page := None; headless := headless b |},
           (log ++ [EBrowserClose; EConsoleError "Firefox closed"])%list)
      | Throw e => (Throw e, b, (log ++ [EBrowserClose])%list)
      end
  end.
Proof.
  unfold close, bind at 1, this at 1.
  destruct (browser b) as [br|]; [|reflexivity].
  unfold bind, call, this, assign, console_error, call.
  destruct (browser_close log) as [[]|e]; [|reflexivity].
  cbn [browser page headless]. now rewrite <- app_assoc.
Qed.

(** X4. [close] on an object without browser does nothing.  On an
    object with a browser: when [browser.close()] returns, both handles
    are dropped, so that [isConnected] is false, [getPage] throws the
    not-connected error and closing again does nothing; when it throws,
    the error is passed on and the object is left as it was, handles
    included. *)
Theorem close_outcomes (browser_close : list event -> outcome unit)
    (b : FirefoxBrowser) (log : list event) :
  (browser b = None -> close browser_close b log = (Return tt, b, log)) /\
  (forall b1 log1,
     browser b <> None ->
     close browser_close b log = (Return tt, b1, log1) ->
     browser b1 = None /\ page b1 = None /\
     log1 = (log ++ [EBrowserClose; EConsoleError "Firefox closed"])%list /\
     isConnected b1 log1 = (Return false, b1, log1) /\
     getPage b1 log1 = (Throw (JsError false not_connected_text), b1, log1) /\
     forall again, close again b1 log1 = (Return tt, b1, log1)) /\
  (forall e b1 log1,
     close browser_close b log = (Throw e, b1, log1) ->
     b1 = b /\ browser_close log = Throw e /\ log1 = (log ++ [EBrowserClose])%list).
Proof.
  rewrite close_run. split; [|split].
  - now intros ->.
  - intros b1 log1 Br C. destruct (browser b); [|now elim Br].
    destruct (browser_close log) as [[]|e]; [|discriminate C].
    injection C as <- <-. repeat split.
  - intros e b1 log1 C. destruct (browser b); [|discriminate C].
    destruct (browser_close log) as [[]|e']; [discriminate C|].
    injection C as <- <- <-. repeat split.
Qed.

(** X5. On an object whose handles are paired, a [cleanup] that returns
    leaves no browser behind: both handles are unset afterwards.  On an
    object that was never connected it only writes its console line. *)
Theorem cleanup_leaves_no_browser (browser_close : list event -> outcome unit)
    (b b1 : FirefoxBrowser) (log log1 : list event) :
  handles_paired b = true ->
  cleanup browser_close b log = (Return tt, b1, log1) ->
  browser b1 = None /\ page b1 = None /\
  (page b = None ->
   b1 = b /\ log1 = (log ++ [EConsoleError (nl ++ "Cleaning up...")])%list).
Proof.
  unfold handles_paired, cleanup, bind at 1, console_error at 1, call at 1.
  unfold bind at 1, isConnected at 1, bind at 1, this at 1, ret at 1.
  intros Hp C.
  destruct (browser b) as [br|] eqn:Br, (page b) as [pg|] eqn:Pg; try discriminate Hp.
  - rewrite close_run, Br in C.
    destruct (browser_close _) as [[]|e]; [|discriminate C].
    injection C as <- <-. repeat split; discriminate.
  - injection C as <- <-. repeat split; assumption.
Qed.


(** ** Navigation and the tools, beyond the claims *)

Lemma goto_run (url : string) (timeout : num)
    (b : FirefoxBrowser) (log : list event) (pg : Page) :
  page b = Some pg ->
  let log1 := (log ++ [EConsoleError ("Navigating to " ++ url)])%list in
  let log2 := (log1 ++ [EPageGoto url timeout])%list in
  goto url timeout b log =
  match URL_protocol env url with
  | None => (Throw (JsError false ("Invalid URL format: " ++ url)), b, log)
  | Some p =>
      if includes ["http:"; "https:"] p then
        match page_goto env log1 url timeout with
        | Return _ => (Return tt, b, log2)
        | Throw (JsError _ message) =>
            (Throw (JsError false (navigation_failure_text url timeout message)), b, log2)
        | Throw (JsThrown v) => (Throw (JsThrown v), b, log2)
        end
      else
        (Throw (JsError false
           ("Invalid protocol: " ++ p ++ ". Only HTTP and HTTPS are supported.")),
         b, log)
  end.
Proof.
  intros Pg log1 log2.
  assert (G : getPage b log = (Return pg, b, log)).
  { unfold getPage, bind, this. now rewrite Pg. }
  unfold goto, bind at 1. rewrite G.
  unfold bind at 1, try_catch at 1.
  destruct (URL_protocol env url) as [p|]; [|reflexivity].
  destruct (includes ["http:"; "https:"] p); [|reflexivity].
  cbn [negb ret].
  unfold bind at 1, console_error, call at 1, try_catch, call.
  fold log1. fold log2. unfold navigation_failure_text.
  destruct (page_goto env log1 url timeout) as [[]|[tf message|v]]; try reflexivity.
  destruct (string_includes message "Timeout"); [reflexivity|].
  destruct (string_includes message "net::"); reflexivity.
Qed.

Lemma goto_not_connected (url : string) (timeout : num)
    (b : FirefoxBrowser) (log : list event) :
  page b = None ->
  goto url timeout b log = (Throw (JsError false not_connected_text), b, log).
Proof.
  intros Pg. unfold goto, bind at 1, getPage, bind, this. now rewrite Pg.
Qed.

(** X6. Whatever the URL, the timeout and the state, [goto] leaves the
    browser object as it is and calls [page.goto] at most once, and only
    with a URL whose protocol is [http:] or [https:]; without a page it
    throws the not-connected error before looking at the URL.  An Error
    it throws is never a TypeError and its message is the not-connected
    text or one of the five navigation texts: the Error of the URL
    parser or of Playwright never comes out as it is.  When it returns,
    [page.goto] was called and returned. *)
Theorem goto_outcomes (url : string) (timeout : num)
    (b : FirefoxBrowser) (log : list event) :
  let r := goto url timeout b log in
  let log1 := (log ++ [EConsoleError ("Navigating to " ++ url)])%list in
  snd (fst r) = b /\
  (snd r = log \/
   snd r = (log1 ++ [EPageGoto url timeout])%list /\
   exists p, URL_protocol env url = Some p /\ includes ["http:"; "https:"] p = true) /\
  (page b = None ->
   fst (fst r) = Throw (JsError false not_connected_text) /\ snd r = log) /\
  (forall tf m,
     fst (fst r) = Throw (JsError tf m) ->
     tf = false /\
     (m = not_connected_text \/
      (exists p, m = "Invalid protocol: " ++ p ++ ". Only HTTP and HTTPS are supported.") \/
      m = "Invalid URL format: " ++ url \/
      exists cause, m = navigation_failure_text url timeout cause)) /\
  (fst (fst r) = Return tt ->
   snd r = (log1 ++ [EPageGoto url timeout])%list /\
   page_goto env log1 url timeout = Return tt).
Proof.
  intros r log1. subst r.
  destruct (page b) as [pg|] eqn:Pg.
  - rewrite (goto_run url timeout b log pg Pg). fold log1.
    destruct (URL_protocol env url) as [p|].
    + destruct (includes ["http:"; "https:"] p) eqn:I.
      * destruct (page_goto env log1 url timeout) as [[]|[tf' m'|v]] eqn:G;
          cbn [fst snd];
          (split; [reflexivity|]);
          (split; [right; split; [reflexivity | now exists p]|]);
          (split; [discriminate|]);
          (split; [|try discriminate; intros _; split; reflexivity]);
          intros tf m E; try discriminate E.
        injection E as <- <-. split; [reflexivity|].
        right; right; right. now exists m'.
      * cbn [fst snd]. split; [reflexivity|]. split; [now left|].
        split; [discriminate|]. split; [|discriminate].
        intros tf m [= <- <-]. split; [reflexivity|]. right; left. now exists p.
    + cbn [fst snd]. split; [reflexivity|]. split; [now left|].
      split; [discriminate|]. split; [|discriminate].
      intros tf m [= <- <-]. split; [reflexivity|]. right; right; now left.
  - rewrite (goto_not_connected url timeout b log Pg). cbn [fst snd].
    split; [reflexivity|]. split; [now left|]. split; [now intros _|].
    split; [|discriminate].
    intros tf m [= <- <-]. split; [reflexivity | now left].
Qed.


(** X7. When the navigation that opens a tool throws, the tool throws
    the same error and stops there: the state and the log are those the
    navigation left, so neither the accessibility tree is read nor the
    script run. *)
Theorem navigation_failure_aborts_tool (pg : Page) (url : option string)
    (verbose : option bool) (script : string)
    (b b1 : FirefoxBrowser) (log log1 : list event) (e : exn) :
  navigation url b log = (Throw e, b1, log1) ->
  takeSnapshot pg {| ts_url := url; ts_verbose := verbose |} b log = (Throw e, b1, log1) /\
  evaluateScript pg {| es_script := script; es_url := url |} b log = (Throw e, b1, log1) /\
  b1 = b /\
  (filter is_page_call log1 = filter is_page_call log \/
   filter is_page_call log1 =
     (filter is_page_call log
      ++ [EPageGoto (opt_string url) DEFAULT_NAVIGATION_TIMEOUT])%list).
Proof.
  intros Nav.
  assert (T : takeSnapshot pg {| ts_url := url; ts_verbose := verbose |} b log
              = (Throw e, b1, log1)).
  { unfold takeSnapshot, bind at 1. cbn [ts_url].
    unfold navigation in Nav. now rewrite Nav. }
  assert (S : evaluateScript pg {| es_script := script; es_url := url |} b log
              = (Throw e, b1, log1)).
  { unfold evaluateScript, bind at 1. cbn [es_url].
    unfold navigation in Nav. now rewrite Nav. }
  unfold navigation in Nav.
  destruct (str_truthy url); [|discriminate Nav].
  destruct (goto_outcomes (opt_string url) DEFAULT_NAVIGATION_TIMEOUT b log)
    as (Hb & Hl & _).
  rewrite Nav in Hb, Hl. cbn [fst snd] in Hb, Hl.
  split; [exact T|]. split; [exact S|]. split; [exact Hb|].
  destruct Hl as [-> | [-> _]].
  - now left.
  - right. rewrite !filter_app. cbn [filter is_page_call]. now rewrite app_nil_r.
Qed.


(** ** The dispatcher, beyond the claims *)

Lemma page_only_ret {A : Type} (a : A) : page_only (ret a).
Proof. intros b log. split; [reflexivity|]. exists []. now rewrite app_nil_r. Qed.

Lemma page_only_throw {A : Type} (e : exn) : page_only (@throw A e).
Proof. intros b log. split; [reflexivity|]. exists []. now rewrite app_nil_r. Qed.

Lemma page_only_call {A : Type} (e : event) (answer : list event -> outcome A) :
  is_launch e = false -> page_only (call e answer).
Proof.
  intros He b log. split; [reflexivity|]. exists [e]. split; [reflexivity|].
  cbn [filter]. now rewrite He.
Qed.

Lemma page_only_bind {A B : Type} (m : M A) (k : A -> M B) :
  page_only m -> (forall a, page_only (k a)) -> page_only (bind m k).
Proof.
  intros Hm Hk b log. unfold bind.
  destruct (Hm b log) as (Eb & extra & El & Ef).
  destruct (m b log) as [[[a|e] b1] log1]; cbn [fst snd] in *; subst.
  - destruct (Hk a b (log ++ extra)%list) as (Eb' & extra' & El' & Ef').
    split; [exact Eb'|]. exists (extra ++ extra')%list.
    rewrite El', app_assoc, filter_app, Ef, Ef'. now split.
  - split; [reflexivity|]. now exists extra.
Qed.

Lemma page_only_try_catch {A : Type} (m : M A) (h : exn -> M A) :
  page_only m -> (forall e, page_only (h e)) -> page_only (try_catch m h).
Proof.
  intros Hm Hh b log. unfold try_catch.
  destruct (Hm b log) as (Eb & extra & El & Ef).
  destruct (m b log) as [[[a|e] b1] log1]; cbn [fst snd] in *; subst.
  - split; [reflexivity|]. now exists extra.
  - destruct (Hh e b (log ++ extra)%list) as (Eb' & extra' & El' & Ef').
    split; [exact Eb'|]. exists (extra ++ extra')%list.
    rewrite El', app_assoc, filter_app, Ef, Ef'. now split.
Qed.

Lemma page_only_this : page_only this.
Proof. intros b log. split; [reflexivity|]. exists []. now rewrite app_nil_r. Qed.

Lemma page_only_getPage : page_only getPage.
Proof.
  apply page_only_bind; [apply page_only_this|].
  intros b. destruct (page b); [apply page_only_ret | apply page_only_throw].
Qed.

Lemma page_only_goto (url : string) (timeout : num) : page_only (goto url timeout).
Proof.
  unfold goto.
  apply page_only_bind; [apply page_only_getPage | intros _].
  apply page_only_bind.
  { apply page_only_try_catch.
    - destruct (URL_protocol env url) as [p|]; [|apply page_only_throw].
      destruct (negb _); [apply page_only_throw | apply page_only_ret].
    - intros [[|] m|v]; apply page_only_throw. }
  intros _. apply page_only_bind; [now apply page_only_call | intros _].
  apply page_only_try_catch; [now apply page_only_call|].
  intros [tf m|v]; [|apply page_only_throw].
  destruct (string_includes m "Timeout"); [apply page_only_throw|].
  destruct (string_includes m "net::"); apply page_only_throw.
Qed.

Lemma page_only_navigation (url : option string) :
  page_only (if str_truthy url
             then goto (opt_string url) DEFAULT_NAVIGATION_TIMEOUT
             else ret tt).
Proof. destruct (str_truthy url); [apply page_only_goto | apply page_only_ret]. Qed.

Lemma page_only_takeSnapshot (pg : Page) (args : TakeSnapshotArgs) :
  page_only (takeSnapshot pg args).
Proof.
  unfold takeSnapshot.
  apply page_only_bind; [apply page_only_navigation | intros _].
  apply page_only_bind; [now apply page_only_call | intros _].
  apply page_only_bind; [now apply page_only_call | intros [t|]].
  - destruct (assignUIDs _ t 0%N). apply page_only_ret.
  - apply page_only_ret.
Qed.

Lemma page_only_evaluateScript (pg : Page) (args : EvaluateScriptArgs) :
  page_only (evaluateScript pg args).
Proof.
  unfold evaluateScript.
  apply page_only_bind; [apply page_only_navigation | intros _].
  apply page_only_bind; [now apply page_only_call | intros _].
  apply page_only_bind; [now apply page_only_call | intros r].
  apply page_only_ret.
Qed.

Lemma page_only_takeSnapshotSchema_parse (a : list (string * json)) :
  page_only (takeSnapshotSchema_parse a).
Proof.
  unfold takeSnapshotSchema_parse, zod_throw.
  destruct (zod_string_url_optional "url" _), (zod_boolean_optional "verbose" _);
    (apply page_only_ret || apply page_only_throw).
Qed.

Lemma page_only_evaluateScriptSchema_parse (a : list (string * json)) :
  page_only (evaluateScriptSchema_parse a).
Proof.
  unfold evaluateScriptSchema_parse, zod_throw.
  destruct (zod_string "script" _), (zod_string_url_optional "url" _);
    (apply page_only_ret || apply page_only_throw).
Qed.

Lemma ensureConnected_connected (b : FirefoxBrowser) (log : list event) (p : Page) :
  page b = Some p -> ensureConnected b log = (Return tt, b, log).
Proof.
  intros Pg. unfold ensureConnected, bind at 1, isConnected, bind, this, ret.
  now rewrite Pg.
Qed.

Lemma ensureConnected_unconnected (b : FirefoxBrowser) (log : list event) :
  page b = None ->
  ensureConnected b log =
  match connect b log with
  | (Return _, b1, log1) => (Return tt, b1, log1)
  | (Throw e, b1, log1) => (Throw e, b1, log1)
  end.
Proof.
  intros Pg. unfold ensureConnected, bind at 1, isConnected, bind at 1, this at 1, ret at 1.
  rewrite Pg. cbn [negb]. unfold bind.
  destruct (connect b log) as [[[p|e] b1] log1]; reflexivity.
Qed.

(** The handlers of [callTool], once connected and with the page. *)
Lemma page_only_dispatch (name : string) (args : option (list (string * json)))
    (pg : Page) :
  page_only
    (bind
       (if String.eqb name "take_snapshot" then
          bind (takeSnapshotSchema_parse (match args with Some a => a | None => [] end))
               (fun validatedArgs => takeSnapshot pg validatedArgs)
        else if String.eqb name "evaluate_script" then
          bind (evaluateScriptSchema_parse (match args with Some a => a | None => [] end))
               (fun validatedArgs => evaluateScript pg validatedArgs)
        else throw (JsError false ("Unknown tool: " ++ name)))
       (fun result => ret {| text := result; isError := false |})).
Proof.
  apply page_only_bind; [|intros r; apply page_only_ret].
  destruct (String.eqb name "take_snapshot").
  - apply page_only_bind; [apply page_only_takeSnapshotSchema_parse|].
    intros v. apply page_only_takeSnapshot.
  - destruct (String.eqb name "evaluate_script"); [|apply page_only_throw].
    apply page_only_bind; [apply page_only_evaluateScriptSchema_parse|].
    intros v. apply page_only_evaluateScript.
Qed.

Lemma callTool_split (name : string) (args : option (list (string * json)))
    (b : FirefoxBrowser) (log : list event) :
  callTool name args b log =
  match ensureConnected b log with
  | (Throw e, b0, log0) =>
      (Return {| text := "Error: " ++ error_text e; isError := true |}, b0, log0)
  | (Return _, b0, log0) =>
      try_catch
        (bind getPage (fun pg =>
           bind
             (if String.eqb name "take_snapshot" then
                bind (takeSnapshotSchema_parse (match args with Some a => a | None => [] end))
                     (fun validatedArgs => takeSnapshot pg validatedArgs)
              else if String.eqb name "evaluate_script" then
                bind (evaluateScriptSchema_parse (match args with Some a => a | None => [] end))
                     (fun validatedArgs => evaluateScript pg validatedArgs)
              else throw (JsError false ("Unknown tool: " ++ name)))
             (fun result => ret {| text := result; isError := false |})))
        (fun error => ret {| text := "Error: " ++ error_text error; isError := true |})
        b0 log0
  end.
Proof.
  unfold callTool, try_catch, bind at 1.
  destruct (ensureConnected b log) as [[[[]|e] b0] log0]; reflexivity.
Qed.

Lemma callTool_state_and_launches (name : string) (args : option (list (string * json)))
    (b : FirefoxBrowser) (log : list event) :
  snd (fst (callTool name args b log)) = snd (fst (ensureConnected b log)) /\
  (forall p, page b = Some p ->
     snd (fst (callTool name args b log)) = b /\
     filter is_launch (snd (callTool name args b log)) = filter is_launch log).
Proof.
  assert (R : page_only
              (try_catch
                 (bind getPage (fun pg =>
                    bind
                      (if String.eqb name "take_snapshot" then
                         bind (takeSnapshotSchema_parse
                                 (match args with Some a => a | None => [] end))
                              (fun validatedArgs => takeSnapshot pg validatedArgs)
                       else if String.eqb name "evaluate_script" then
                         bind (evaluateScriptSchema_parse
                                 (match args with Some a => a | None => [] end))
                              (fun validatedArgs => evaluateScript pg validatedArgs)
                       else throw (JsError false ("Unknown tool: " ++ name)))
                      (fun result => ret {| text := result; isError := false |})))
                 (fun error =>
                    ret {| text := "Error: " ++ error_text error; isError := true |}))).
  { apply page_only_try_catch; [|intros e; apply page_only_ret].
    apply page_only_bind; [apply page_only_getPage|].
    intros pg. apply page_only_dispatch. }
  split.
  - rewrite callTool_split.
    destruct (ensureConnected b log) as [[[[]|e] b0] log0]; [|reflexivity].
    cbn [fst snd]. apply (R b0 log0).
  - intros p Pg. rewrite callTool_split, (ensureConnected_connected b log p Pg).
    destruct (R b log) as (Eb & extra & El & Ef).
    split; [exact Eb|]. rewrite El, filter_app, Ef. now rewrite app_nil_r.
Qed.

(** X8. A tool call changes the browser object only by connecting: the
    object after the call is the one [ensureConnected] leaves.  On a
    connected browser the call therefore keeps both handles as they
    are, and it launches nothing: the launches in the log are those
    that were there. *)
Theorem callTool_keeps_connection (name : string) (args : option (list (string * json)))
    (b : FirefoxBrowser) (log : list event) :
  snd (fst (callTool name args b log)) = snd (fst (ensureConnected b log)) /\
  (forall p, page b = Some p ->
     snd (fst (callTool name args b log)) = b /\
     filter is_launch (snd (callTool name args b log)) = filter is_launch log).
Proof. exact (callTool_state_and_launches name args b log). Qed.

Lemma takeSnapshot_text (pg : Page) (args : TakeSnapshotArgs)
    (b b1 : FirefoxBrowser) (log log1 : list event) (s : string) :
  takeSnapshot pg args b log = (Return s, b1, log1) ->
  String.prefix "Error: " s = false.
Proof.
  unfold takeSnapshot, bind at 1. fold (navigation (ts_url args)).
  destruct (navigation (ts_url args) b log) as [[[[]|e] b0] log0];
    [|discriminate].
  unfold bind, console_error, call.
  destruct (accessibility_snapshot env _) as [[t|]|e]; [| |discriminate].
  - destruct (assignUIDs _ t 0%N) as [t' k]. unfold ret. intros [= <- _ _]. reflexivity.
  - unfold ret. intros [= <- _ _]. reflexivity.
Qed.

Lemma evaluateScript_text (pg : Page) (args : EvaluateScriptArgs)
    (b b1 : FirefoxBrowser) (log log1 : list event) (s : string) :
  evaluateScript pg args b log = (Return s, b1, log1) ->
  String.prefix "Error: " s = false.
Proof.
  unfold evaluateScript, bind at 1. fold (navigation (es_url args)).
  destruct (navigation (es_url args) b log) as [[[[]|e] b0] log0];
    [|discriminate].
  unfold bind, console_error, call.
  destruct (page_evaluate env _ _) as [r|e]; [|discriminate].
  unfold ret. intros [= <- _ _]. reflexivity.
Qed.

Lemma prefix_Error (x : string) : String.prefix "Error: " ("Error: " ++ x) = true.
Proof. destruct x; vm_compute; reflexivity. Qed.

Ltac error_reply :=
  do 3 eexists; split;
  [reflexivity | cbn [text isError]; symmetry; apply prefix_Error].

(** X9. The dispatcher never throws: whatever the tool name, the
    arguments and the answers of the collaborators, it returns a reply.
    The reply carries the error flag exactly when its text starts with
    [Error: ]. *)
Theorem callTool_always_replies (name : string) (args : option (list (string * json)))
    (b : FirefoxBrowser) (log : list event) :
  exists r b1 log1,
    callTool name args b log = (Return r, b1, log1) /\
    isError r = String.prefix "Error: " (text r).
Proof.
  rewrite callTool_split.
  destruct (ensureConnected b log) as [[[[]|e] b0] log0]; [|error_reply].
  unfold try_catch, bind at 1, getPage, bind at 1, this at 1.
  destruct (page b0) as [pg|]; [|unfold throw at 1; error_reply].
  unfold ret at 1, bind at 1.
  destruct (String.eqb name "take_snapshot").
  - unfold bind at 1.
    destruct (takeSnapshotSchema_parse _ b0 log0) as [[[v|e] b1] log1]; [|error_reply].
    destruct (takeSnapshot pg v b1 log1) as [[[s|e] b2] log2] eqn:T; [|error_reply].
    do 3 eexists. split; [reflexivity|]. cbn [text isError].
    symmetry. exact (takeSnapshot_text pg v b1 b2 log1 log2 s T).
  - destruct (String.eqb name "evaluate_script"); [|unfold throw at 1; error_reply].
    unfold bind at 1.
    destruct (evaluateScriptSchema_parse _ b0 log0) as [[[v|e] b1] log1]; [|error_reply].
    destruct (evaluateScript pg v b1 log1) as [[[s|e] b2] log2] eqn:T; [|error_reply].
    do 3 eexists. split; [reflexivity|]. cbn [text isError].
    symmetry. exact (evaluateScript_text pg v b1 b2 log1 log2 s T).
Qed.

(** X10. A name that is not in the list the server advertises is
    answered, once connected, with the error reply [Unknown tool:
    <name>], and nothing is done on the page; the two advertised names
    are the two the dispatcher knows. *)
Theorem callTool_unknown_tool (name : string) (args : option (list (string * json)))
    (b b0 : FirefoxBrowser) (log log0 : list event) (pg : Page) :
  ensureConnected b log = (Return tt, b0, log0) ->
  page b0 = Some pg ->
  includes (map tool_name listTools) name = false ->
  callTool name args b log =
  (Return {| text := "Error: Unknown tool: " ++ name; isError := true |}, b0, log0).
Proof.
  intros Conn Pg Hn. rewrite callTool_split, Conn.
  unfold try_catch, bind at 1, getPage, bind at 1, this at 1. rewrite Pg.
  unfold ret at 1, bind at 1.
  unfold includes in Hn. cbn [map listTools tool_name takeSnapshotTool
                              evaluateScriptTool existsb] in Hn.
  apply orb_false_iff in Hn. destruct Hn as [E1 Hn].
  apply orb_false_iff in Hn. destruct Hn as [E2 _].
  now rewrite E1, E2.
Qed.



(** X11. When Firefox cannot be started or the page cannot be opened,
    the call is answered with the error reply carrying the message of
    the failure; nothing was validated or done on a page, and the
    object is left without browser and page, as before the first
    connection. *)
Theorem callTool_connection_failure (name : string) (args : option (list (string * json)))
    (b b0 : FirefoxBrowser) (log log0 : list event) (e : exn) :
  page b = None ->
  connect b log = (Throw e, b0, log0) ->
  callTool name args b log =
    (Return {| text := "Error: " ++ error_text e; isError := true |}, b0, log0) /\
  browser b0 = None /\ page b0 = None /\
  filter is_page_call log0 = filter is_page_call log.
Proof.
  intros Pg C.
  split.
  { rewrite callTool_split, (ensureConnected_unconnected b log Pg), C. reflexivity. }
  rewrite (connect_run b log Pg) in C.
  destruct (firefox_launch env _ (headless b)) as [br|e'].
  - destruct (browser_newPage env _) as [q|e'']; [discriminate C|].
    injection C as <- <- <-. repeat split.
    rewrite !filter_app. cbn [filter is_page_call]. now rewrite !app_nil_r.
  - destruct (browser b) eqn:Br; injection C as <- <- <-; repeat split;
      try assumption;
      rewrite !filter_app; cbn [filter is_page_call]; now rewrite !app_nil_r.
Qed.


Lemma connect_paired (b : FirefoxBrowser) (log : list event) :
  handles_paired b = true -> handles_paired (snd (fst (connect b log))) = true.
Proof.
  intros Hp. destruct (page b) as [p|] eqn:Pg.
  - now rewrite (connect_connected b log p Pg).
  - rewrite (connect_run b log Pg).
    destruct (firefox_launch env _ (headless b)) as [br|e].
    + destruct (browser_newPage env _); reflexivity.
    + destruct (browser b); [reflexivity | exact Hp].
Qed.

(** X13. The operations of the browser object and of the server keep
    the two handles paired: starting from the constructor's object,
    after any [connect], [close], [cleanup] or tool call, whatever its
    outcome, the object has a browser exactly when it has a page. *)
Theorem handles_paired_invariant (b : FirefoxBrowser) (log : list event) :
  handles_paired b = true ->
  (forall h, handles_paired (new_FirefoxBrowser h) = true) /\
  handles_paired (snd (fst (connect b log))) = true /\
  (forall browser_close,
     handles_paired (snd (fst (close browser_close b log))) = true) /\
  (forall browser_close,
     handles_paired (snd (fst (cleanup browser_close b log))) = true) /\
  (forall name args,
     handles_paired (snd (fst (callTool name args b log))) = true).
Proof.
  intros Hp.
  assert (Hclose : forall bc l, handles_paired (snd (fst (close bc b l))) = true).
  { intros bc l. rewrite close_run.
    destruct (browser b); [|exact Hp].
    destruct (bc l) as [[]|e]; [reflexivity | exact Hp]. }
  split; [reflexivity|].
  split; [now apply connect_paired|].
  split; [intros bc; apply Hclose|].
  split.
  - intros bc. unfold cleanup, bind at 1, console_error at 1, call at 1.
    unfold bind at 1, isConnected at 1, bind at 1, this at 1, ret at 1.
    destruct (page b); [apply Hclose | exact Hp].
  - intros name args.
    rewrite (proj1 (callTool_state_and_launches name args b log)).
    destruct (page b) as [p|] eqn:Pg.
    + now rewrite (ensureConnected_connected b log p Pg).
    + rewrite (ensureConnected_unconnected b log Pg).
      pose proof (connect_paired b log Hp) as Hc.
      destruct (connect b log) as [[[q|e] b1] log1]; exact Hc.
Qed.


(** ** The annotator and the formatter, beyond the claims *)

Lemma set_children_idem (X : option (list AccessibilityNode)) (n : AccessibilityNode) :
  set_children X (set_children X n) = set_children X n.
Proof. reflexivity. Qed.

Lemma set_children_same (n : AccessibilityNode) : set_children (children n) n = n.
Proof. now destruct n. Qed.

Lemma annotate_node_idem (verbose : bool) (t : AccessibilityNode) (c : UIDCounter)
    (X : option (list AccessibilityNode)) :
  annotate_node verbose (set_children X (fst (annotate_node verbose t c))) c =
  (set_children X (fst (annotate_node verbose t c)), snd (annotate_node verbose t c)).
Proof.
  assert (R : role (set_children X (fst (annotate_node verbose t c))) = role t).
  { cbn [set_children role]. apply annotate_node_role. }
  unfold annotate_node at 1. rewrite (uid_guard_role verbose t _ R).
  unfold annotate_node.
  destruct (uid_guard verbose t), verbose; reflexivity.
Qed.

Lemma forEach_counter_idem (f : AccessibilityNode -> UIDCounter -> AccessibilityNode * UIDCounter)
    (cs : list AccessibilityNode) :
  Forall (fun t => forall c, f (fst (f t c)) c = f t c) cs ->
  forall c,
    forEach_counter f (fst (forEach_counter f cs c)) c = forEach_counter f cs c.
Proof.
  induction 1 as [|x cs Hx _ IH]; intros c; [reflexivity|].
  cbn [forEach_counter]. specialize (Hx c).
  destruct (f x c) as [x' c'] eqn:Fx. cbn [fst] in Hx.
  specialize (IH c').
  destruct (forEach_counter f cs c') as [rest' c''] eqn:Fr. cbn [fst] in *.
  cbn [forEach_counter]. now rewrite Hx, IH.
Qed.

(** X14. Annotating an annotated tree again, with the same verbose flag
    and from the same counter, changes nothing: the same tree and the
    same final counter come out.  The uids of a snapshot are thus a
    function of the shape and roles of the tree alone. *)
Theorem assignUIDs_idempotent (verbose : bool) (t : AccessibilityNode) (c : UIDCounter) :
  assignUIDs verbose (fst (assignUIDs verbose t c)) c = assignUIDs verbose t c.
Proof.
  revert c. induction t as [t IH] using node_induction. intros c.
  rewrite (assignUIDs_eq verbose t c).
  pose proof (annotate_node_idem verbose t c) as A.
  pose proof (annotate_node_frame verbose t c) as F.
  destruct (annotate_node verbose t c) as [t1 c1]. cbn [fst snd] in A, F.
  unfold child_list in IH.
  destruct (children t) as [cs|] eqn:Ecs.
  - pose proof (forEach_counter_idem (assignUIDs verbose) cs IH c1) as L.
    destruct (forEach_counter (assignUIDs verbose) cs c1) as [cs' c2].
    cbn [fst] in *.
    rewrite assignUIDs_eq, (A (Some cs')). cbn [set_children children].
    rewrite L. reflexivity.
  - cbn [fst].
    destruct (F None) as (_ & _ & _ & _ & C).
    rewrite assignUIDs_eq, C.
    specialize (A (children t1)). rewrite set_children_same in A.
    now rewrite A.
Qed.

Lemma delete_verbose_everywhere_eq (n : AccessibilityNode) :
  delete_verbose_everywhere n =
  set_children (option_map (map delete_verbose_everywhere) (children n))
    (delete_verbose_fields n).
Proof. destruct n. reflexivity. Qed.

Lemma delete_verbose_everywhere_format (n : AccessibilityNode) :
  forall d, formatSnapshot (delete_verbose_everywhere n) d = formatSnapshot n d.
Proof.
  induction n as [n IH] using node_induction. intros d.
  rewrite !formatSnapshot_eq. f_equal.
  - rewrite delete_verbose_everywhere_eq. reflexivity.
  - rewrite delete_verbose_everywhere_eq. unfold child_list in *.
    cbn [set_children children].
    destruct (children n) as [cs|]; [|reflexivity].
    cbn [option_map]. rewrite map_map. f_equal.
    induction IH as [|c cs Hc _ IHcs]; [reflexivity|].
    cbn [map]. now rewrite Hc, IHcs.
Qed.

Lemma annotate_node_delete (verbose : bool) (t : AccessibilityNode) (c : UIDCounter)
    (X : option (list AccessibilityNode)) :
  annotate_node verbose (set_children X (delete_verbose_fields t)) c =
  (set_children X (delete_verbose_fields (fst (annotate_node verbose t c))),
   snd (annotate_node verbose t c)).
Proof.
  assert (R : role (set_children X (delete_verbose_fields t)) = role t) by reflexivity.
  unfold annotate_node at 1. rewrite (uid_guard_role verbose t _ R).
  unfold annotate_node.
  destruct (uid_guard verbose t), verbose; reflexivity.
Qed.

Lemma assignUIDs_delete (verbose : bool) (t : AccessibilityNode) :
  forall c,
    assignUIDs verbose (delete_verbose_everywhere t) c =
    (delete_verbose_everywhere (fst (assignUIDs verbose t c)),
     snd (assignUIDs verbose t c)).
Proof.
  induction t as [t IH] using node_induction. intros c.
  rewrite (assignUIDs_eq verbose t c), (delete_verbose_everywhere_eq t), assignUIDs_eq.
  rewrite annotate_node_delete.
  pose proof (annotate_node_frame verbose t c) as F.
  destruct (annotate_node verbose t c) as [t1 c1]. cbn [fst snd] in *.
  cbn [set_children children]. unfold child_list in IH.
  destruct (children t) as [cs|] eqn:Ecs; cbn [option_map].
  - assert (L : forall c0,
               forEach_counter (assignUIDs verbose) (map delete_verbose_everywhere cs) c0 =
               (map delete_verbose_everywhere
                  (fst (forEach_counter (assignUIDs verbose) cs c0)),
                snd (forEach_counter (assignUIDs verbose) cs c0))).
    { clear - IH. induction IH as [|x cs Hx _ IHcs]; intros c0; [reflexivity|].
      cbn [map forEach_counter]. rewrite Hx.
      destruct (assignUIDs verbose x c0) as [x' c']. cbn [fst snd].
      rewrite IHcs.
      destruct (forEach_counter (assignUIDs verbose) cs c') as [rest' c''].
      reflexivity. }
    rewrite L.
    destruct (forEach_counter (assignUIDs verbose) cs c1) as [cs' c2]. cbn [fst snd].
    rewrite delete_verbose_everywhere_eq. reflexivity.
  - cbn [fst snd]. rewrite delete_verbose_everywhere_eq.
    destruct (F None) as (_ & _ & _ & _ & C). rewrite C. reflexivity.
Qed.

(** X15. The eight verbose-only fields never reach the text, with or
    without verbose: two input trees that differ only in these fields,
    at any node, give the same formatted text after annotation and the
    same count of uids.  With [verbose] set the fields are kept on the
    nodes but the formatter does not print them. *)
Theorem verbose_fields_never_printed (verbose : bool) (t1 t2 : AccessibilityNode)
    (c : UIDCounter) (d : nat) :
  delete_verbose_everywhere t1 = delete_verbose_everywhere t2 ->
  formatSnapshot (fst (assignUIDs verbose t1 c)) d =
    formatSnapshot (fst (assignUIDs verbose t2 c)) d /\
  snd (assignUIDs verbose t1 c) = snd (assignUIDs verbose t2 c).
Proof.
  intros E.
  pose proof (assignUIDs_delete verbose t1 c) as A1.
  pose proof (assignUIDs_delete verbose t2 c) as A2.
  rewrite E, A2 in A1. injection A1 as Et Ec.
  split; [|now symmetry].
  rewrite <- (delete_verbose_everywhere_format (fst (assignUIDs verbose t1 c))).
  rewrite <- (delete_verbose_everywhere_format (fst (assignUIDs verbose t2 c))).
  now rewrite Et.
Qed.

(** X16. After annotation every eligible node has a line, whose first
    part is its uid in brackets and whose second part is its role: each
    uid counted in the header can be found in the text. *)
Theorem eligible_nodes_show_uid (verbose : bool) (t : AccessibilityNode)
    (c : UIDCounter) :
  Forall (fun n' =>
            uid_guard verbose n' = true ->
            exists i r rest,
              role n' = Some r /\
              uid n' = Some ("uid_" ++ dec i) /\
              node_parts n' = ("[uid_" ++ dec i ++ "]") :: r :: rest /\
              forall d, node_line n' d <> "")
         (preorder (fst (assignUIDs verbose t c))).
Proof.
  destruct (assignUIDs_numbered verbose t c) as (_ & F & _).
  induction F as [|n n' ns ns' [Hr Hu] _ IH]; constructor; [|exact IH].
  intros G. pose proof G as G'.
  rewrite (uid_guard_role verbose n n' Hr) in G'. rewrite G' in Hu.
  destruct Hu as [i Hu]. exists i.
  unfold uid_guard in G. destruct (role n') as [r|] eqn:Er; [|discriminate G].
  apply andb_true_iff in G. destruct G as [Gr _].
  destruct r as [|a r]; [discriminate Gr|].
  assert (P : node_parts n' =
              ("[uid_" ++ dec i ++ "]") :: String a r
              :: somes [spec_name_part n'; spec_value_part n'; spec_states_part n']).
  { rewrite node_parts_spec. unfold spec_parts, spec_uid_part, spec_role_part.
    rewrite Hu, Er. reflexivity. }
  exists (String a r). eexists. split; [reflexivity|]. split; [exact Hu|].
  split; [exact P|].
  intros d. unfold node_line. rewrite P. cbn [List.length Nat.ltb Nat.leb].
  destruct d; discriminate.
Qed.



(** ** The schemas and the advertised tools *)

(** X18. The take_snapshot schema accepts an argument object exactly
    when its [url], if there is one, is a string that passes the URL
    check and its [verbose], if there is one, is a boolean; the
    validated arguments are then these two values, and every other key
    is dropped.  In particular a call without arguments is accepted. *)
Theorem takeSnapshotSchema_accepts (a : list (string * json))
    (b : FirefoxBrowser) (log : list event) (v : TakeSnapshotArgs) :
  (takeSnapshotSchema_parse a b log = (Return v, b, log) <->
   (get_field "url" a = None /\ ts_url v = None \/
    exists u, get_field "url" a = Some (JStr u) /\ zod_is_url env u = true /\
              ts_url v = Some u) /\
   (get_field "verbose" a = None /\ ts_verbose v = None \/
    exists f, get_field "verbose" a = Some (JBool f) /\ ts_verbose v = Some f)) /\
  takeSnapshotSchema_parse [] b log =
    (Return {| ts_url := None; ts_verbose := None |}, b, log).
Proof.
  split; [|reflexivity].
  unfold takeSnapshotSchema_parse, zod_string_url_optional, zod_boolean_optional,
    zod_throw, ret, throw.
  split.
  - intros E.
    destruct (get_field "url" a) as [[| | |u| |]|]; try discriminate E;
      destruct (get_field "verbose" a) as [[|f| | | |]|]; try discriminate E;
      try (destruct (zod_is_url env u) eqn:Z; try discriminate E);
      injection E as <-; cbn [ts_url ts_verbose]; split; eauto 6.
  - intros [[[Hu Hv] | (u & Hu & Hz & Hv)] [[Hw Hx] | (f & Hw & Hx)]];
      rewrite Hu, Hw, ?Hz; destruct v as [vu vv]; cbn [ts_url ts_verbose] in *;
      subst; reflexivity.
Qed.

(** X19. What the server advertises agrees with what it enforces: for
    every listed tool, a call that leaves out a key the tool lists as
    required is turned down by validation, with an issue for that key
    and without touching the page. *)
Theorem required_keys_enforced (tool : ToolDefinition) (key : string)
    (a : list (string * json))
    (b b0 : FirefoxBrowser) (log log0 : list event) (pg : Page) :
  In tool listTools ->
  In key (tool_required tool) ->
  get_field key a = None ->
  ensureConnected b log = (Return tt, b0, log0) ->
  page b0 = Some pg ->
  exists issues,
    In (InvalidType key "string") issues /\
    callTool (tool_name tool) (Some a) b log =
    (Return {| text := "Error: " ++ zod_message env issues; isError := true |},
     b0, log0).
Proof.
  intros Ht Hk Ha Conn Pg.
  destruct Ht as [<- | [<- | []]]; cbn [tool_required takeSnapshotTool
                                        evaluateScriptTool tool_name] in *.
  - destruct Hk.
  - destruct Hk as [<- | []].
    rewrite (callTool_evaluate_script (Some a) b b0 log log0 pg Conn Pg).
    cbn [arguments_or_empty]. unfold evaluateScriptSchema_parse, zod_string.
    rewrite Ha.
    destruct (zod_string_url_optional "url" (get_field "url" a)) as [u|i];
      eexists; (split; [|reflexivity]); now left.
Qed.

End Snapshot.

Arguments AccessibilityNode num : clear implicits.
Arguments sample_env {num H}.
Arguments Return {A} a.
Arguments Throw {A} e.

(** * Worked examples, on the integer-valued numbers *)

(** The heading and the disabled button, without verbose: one uid, for
    the button. *)
Lemma assignUIDs_numbers_preorder_witness :
  snd (assignUIDs (num:=Z) false heading_button_tree 0%N) = 1%N /\
  assigned_uids false (fst (assignUIDs (num:=Z) false heading_button_tree 0%N))
    = [Some "uid_1"].
Proof.
  destruct (assignUIDs_numbers_preorder (num:=Z) false heading_button_tree)
    as (_ & Ec & _ & U & _).
  split; [exact Ec | exact U].
Defined.

(** A call on the page with the single link. *)
Lemma takeSnapshot_header_witness :
  fst (fst (takeSnapshot (num:=Z) sample_env 0
              {| ts_url := None; ts_verbose := None |} connected_browser [])) =
  Return ("Accessibility Snapshot (1 interactive elements)" ++ nl
          ++ "============================================================" ++ nl
          ++ "[uid_1] link " ++ dquote ++ "Skip to content" ++ dquote ++ nl).
Proof.
  destruct (takeSnapshot_header (num:=Z) sample_env 0
              {| ts_url := None; ts_verbose := None |}
              connected_browser connected_browser [] [] link_tree
              eq_refl eq_refl) as (E & _).
  exact E.
Defined.

(** A slider at 0, two levels deep: no value part. *)
Lemma formatSnapshot_line_composition_witness :
  formatSnapshot (num:=Z) slider_at_zero 2 =
    "    slider " ++ dquote ++ "Volume" ++ dquote ++ nl /\
  node_parts (num:=Z) slider_at_zero = ["slider"; dquote ++ "Volume" ++ dquote].
Proof.
  destruct (formatSnapshot_line_composition (num:=Z) slider_at_zero 2)
    as (P & _ & F & _).
  split; [exact F | exact P].
Defined.

(** A node with [expanded: false] and nothing else has a line. *)
Lemma collapsed_node_has_line :
  no_role_name_value_state (num:=Z) collapsed_node = true /\
  node_line (num:=Z) collapsed_node 0 = "(collapsed)" ++ nl /\
  formatSnapshot (num:=Z) collapsed_node 0 = "(collapsed)" ++ nl.
Proof. repeat split. Qed.

(** The root of the second sample tree is skipped, its children are
    rendered one level down. *)
Lemma formatSnapshot_skips_empty_node_witness :
  skipped_node (num:=Z) heading_button_tree = true /\
  formatSnapshot (num:=Z) heading_button_tree 0 =
    "  heading " ++ dquote ++ "Title" ++ dquote ++ nl
    ++ "  button " ++ dquote ++ "Sign in" ++ dquote ++ " (disabled)" ++ nl.
Proof.
  split; [reflexivity|].
  destruct (formatSnapshot_skips_empty_node (num:=Z) heading_button_tree 0 eq_refl)
    as (_ & _ & F & _).
  exact F.
Defined.

(** An empty script passes the schema and reaches the page. *)
Lemma evaluate_script_accepts_empty_script :
  evaluateScriptSchema_parse (num:=Z) sample_env [("script", JStr "")]
    connected_browser [] =
    (Return {| es_script := ""; es_url := None |}, connected_browser, []) /\
  callTool (num:=Z) sample_env "evaluate_script" (Some [("script", JStr "")])
    connected_browser [] =
    (Return {| text := "Script executed successfully:" ++ nl ++ nl ++ "undefined";
               isError := false |},
     connected_browser,
     [EConsoleError "Executing JavaScript..."; EPageEvaluate ""]).
Proof. split; reflexivity. Qed.

(** A script that is not a string is turned down before anything is
    done on the page; the empty script is let through. *)
Lemma callTool_validates_before_handler_witness :
  callTool (num:=Z) sample_env "evaluate_script" (Some [("script", JNum 5%Z)])
    fresh_browser [] =
    (Return {| text := "Error: Invalid type at script"; isError := true |},
     connected_browser,
     [EConsoleError "Launching Firefox..."; EFirefoxLaunch false;
      EBrowserNewPage; EConsoleError "Firefox ready"]) /\
  evaluateScriptSchema_parse (num:=Z) sample_env [("script", JStr "")]
    fresh_browser [] =
    (Return {| es_script := ""; es_url := None |}, fresh_browser, []).
Proof.
  split.
  - destruct (callTool_validates_before_handler (num:=Z) sample_env
                (Some [("script", JNum 5%Z)]) fresh_browser connected_browser []
                [EConsoleError "Launching Firefox..."; EFirefoxLaunch false;
                 EBrowserNewPage; EConsoleError "Firefox ready"]
                0 eq_refl eq_refl) as (_ & (r & Hr & Hcall) & _).
    specialize (Hr fresh_browser []). injection Hr as Hr. subst r. exact Hcall.
  - destruct (callTool_validates_before_handler (num:=Z) sample_env
                (Some [("script", JStr "")]) connected_browser connected_browser [] []
                0 eq_refl eq_refl) as (_ & _ & _ & Hacc).
    exact (Hacc "" eq_refl eq_refl fresh_browser []).
Defined.

(** A page without accessibility tree. *)
Lemma takeSnapshot_no_tree_witness :
  fst (fst (callTool (num:=Z) sample_env "take_snapshot"
              (Some [("url", JStr "http://blank.example/")]) fresh_browser [])) =
  Return {| text := "No accessibility tree available for this page.";
            isError := false |}.
Proof.
  destruct (takeSnapshot_no_tree (num:=Z) sample_env
              (Some [("url", JStr "http://blank.example/")])
              {| ts_url := Some "http://blank.example/"; ts_verbose := None |}
              0 fresh_browser connected_browser connected_browser
              []
              [EConsoleError "Launching Firefox..."; EFirefoxLaunch false;
               EBrowserNewPage; EConsoleError "Firefox ready"]
              [EConsoleError "Launching Firefox..."; EFirefoxLaunch false;
               EBrowserNewPage; EConsoleError "Firefox ready";
               EConsoleError "Navigating to http://blank.example/";
               EPageGoto "http://blank.example/" 30000%Z])
    as (_ & E); [reflexivity | reflexivity | reflexivity
                | vm_compute; reflexivity | reflexivity | exact E].
Defined.

(** The scenario of the ftp URL. *)
Lemma goto_failures_witness :
  goto (num:=Z) sample_env "ftp://example.com" 30000%Z connected_browser [] =
  (Throw (JsError false
     "Invalid protocol: ftp:. Only HTTP and HTTPS are supported."),
   connected_browser, []).
Proof.
  destruct (goto_failures (num:=Z) sample_env "ftp://example.com" 30000%Z
              connected_browser [] 0 eq_refl) as (_ & A & _).
  exact (A "ftp:" eq_refl eq_refl).
Defined.

(** Verbose fields of a slider go without verbose and stay with it. *)
Lemma assignUIDs_frame_witness :
  annotation_of (num:=Z) false slider_at_zero
    (fst (assignUIDs false slider_at_zero 0%N)) /\
  description (fst (assignUIDs (num:=Z) false slider_at_zero 0%N)) = None /\
  description (fst (assignUIDs (num:=Z) true slider_at_zero 0%N)) = Some "loudness".
Proof.
  split; [exact (assignUIDs_frame (num:=Z) false slider_at_zero 0%N)|].
  split; reflexivity.
Defined.

(** The heading gets a uid only with verbose; the button in both runs. *)
Lemma assignUIDs_verbose_subset_witness :
  eligible_count (num:=Z) false heading_button_tree
    <= eligible_count (num:=Z) true heading_button_tree /\
  incl (assigned_uids false (fst (assignUIDs (num:=Z) false heading_button_tree 0%N)))
       (assigned_uids true (fst (assignUIDs (num:=Z) true heading_button_tree 0%N))).
Proof.
  destruct (assignUIDs_verbose_subset (num:=Z) heading_button_tree)
    as (_ & _ & L & I).
  split; [exact L | exact I].
Defined.

(** A button with [pressed], [modal], [multiline], [multiselectable],
    [level], [valuemin] and [valuemax] renders as the plain button. *)
Lemma formatSnapshot_ignores_unrendered_witness :
  formatSnapshot (num:=Z) pressed_button 1 = formatSnapshot (num:=Z) plain_button 1 /\
  formatSnapshot (num:=Z) pressed_button 1 = "  button " ++ dquote ++ "Bold" ++ dquote ++ nl.
Proof.
  destruct (formatSnapshot_ignores_unrendered (num:=Z) pressed_button plain_button 1
              eq_refl) as (F & _).
  split; [exact F | reflexivity].
Defined.

(** The two sample pages through the dispatcher, from a browser that is
    not yet launched. *)
Example callTool_link_page :
  fst (fst (callTool (num:=Z) sample_env "take_snapshot" None fresh_browser [])) =
  Return {| text := "Accessibility Snapshot (1 interactive elements)" ++ nl
                    ++ "============================================================" ++ nl
                    ++ "[uid_1] link " ++ dquote ++ "Skip to content" ++ dquote ++ nl;
            isError := false |}.
Proof. vm_compute. reflexivity. Qed.

Example callTool_login_page :
  fst (fst (callTool (num:=Z) sample_env "take_snapshot"
              (Some [("url", JStr "http://login.example/")]) fresh_browser [])) =
  Return {| text := "Accessibility Snapshot (1 interactive elements)" ++ nl
                    ++ "============================================================" ++ nl
                    ++ "  heading " ++ dquote ++ "Title" ++ dquote ++ nl
                    ++ "  [uid_1] button " ++ dquote ++ "Sign in" ++ dquote
                    ++ " (disabled)" ++ nl;
            isError := false |}.
Proof. vm_compute. reflexivity. Qed.

Example callTool_one_plus_one :
  fst (fst (callTool (num:=Z) sample_env "evaluate_script"
              (Some [("script", JStr "1+1")]) fresh_browser [])) =
  Return {| text := "Script executed successfully:" ++ nl ++ nl ++ "2";
            isError := false |}.
Proof. vm_compute. reflexivity. Qed.

Example callTool_slow_page :
  fst (fst (callTool (num:=Z) sample_env "take_snapshot"
              (Some [("url", JStr "http://slow.example/")]) fresh_browser [])) =
  Return {| text := "Error: Navigation timeout after 30000ms for http://slow.example/";
            isError := true |}.
Proof. vm_compute. reflexivity. Qed.

(** * Worked examples for the further properties *)

Lemma connect_then_connected_witness :
  connect (num:=Z) sample_env connected_browser
    [EConsoleError "Launching Firefox..."; EFirefoxLaunch false;
     EBrowserNewPage; EConsoleError "Firefox ready"] =
  (Return 0, connected_browser,
   [EConsoleError "Launching Firefox..."; EFirefoxLaunch false;
    EBrowserNewPage; EConsoleError "Firefox ready"]).
Proof.
  destruct (connect_then_connected (num:=Z) sample_env fresh_browser connected_browser
              [] [EConsoleError "Launching Firefox..."; EFirefoxLaunch false;
                  EBrowserNewPage; EConsoleError "Firefox ready"] 0)
    as (_ & _ & _ & C); [vm_compute; reflexivity | exact C].
Defined.


(** Firefox starts, the page cannot be opened: the browser is closed. *)
Lemma connect_failure_cleans_up_witness :
  connect (num:=Z) no_page_env fresh_browser [] =
    (Throw (JsError false "browser.newPage: Target closed"), fresh_browser,
     [EConsoleError "Launching Firefox..."; EFirefoxLaunch false;
      EBrowserNewPage; EBrowserClose]) /\
  browser fresh_browser = None /\ page fresh_browser = None.
Proof.
  assert (C : connect (num:=Z) no_page_env fresh_browser [] =
              (Throw (JsError false "browser.newPage: Target closed"), fresh_browser,
               [EConsoleError "Launching Firefox..."; EFirefoxLaunch false;
                EBrowserNewPage; EBrowserClose])) by (vm_compute; reflexivity).
  destruct (connect_failure_cleans_up (num:=Z) no_page_env fresh_browser fresh_browser
              [] _ _ eq_refl C) as (B & P & _).
  split; [exact C|]. split; [exact B | exact P].
Defined.

Lemma close_outcomes_witness :
  getPage (num:=Z) fresh_browser [EBrowserClose; EConsoleError "Firefox closed"] =
  (Throw (JsError false not_connected_text), fresh_browser,
   [EBrowserClose; EConsoleError "Firefox closed"]) /\
  close (num:=Z) (fun _ => Return tt) fresh_browser [] = (Return tt, fresh_browser, []).
Proof.
  destruct (close_outcomes (num:=Z) (fun _ => Return tt) connected_browser [])
    as (_ & S & _).
  destruct (S fresh_browser [EBrowserClose; EConsoleError "Firefox closed"])
    as (_ & _ & _ & _ & G & _); [discriminate | reflexivity |].
  destruct (close_outcomes (num:=Z) (fun _ => Return tt) fresh_browser [])
    as (N & _ & _).
  split; [exact G | exact (N eq_refl)].
Defined.

Lemma cleanup_leaves_no_browser_witness :
  cleanup (num:=Z) (fun _ => Return tt) connected_browser [] =
    (Return tt, fresh_browser,
     [EConsoleError (nl ++ "Cleaning up..."); EBrowserClose;
      EConsoleError "Firefox closed"]) /\
  browser fresh_browser = None /\ page fresh_browser = None.
Proof.
  assert (C : cleanup (num:=Z) (fun _ => Return tt) connected_browser [] =
              (Return tt, fresh_browser,
               [EConsoleError (nl ++ "Cleaning up..."); EBrowserClose;
                EConsoleError "Firefox closed"])) by reflexivity.
  destruct (cleanup_leaves_no_browser (num:=Z) (fun _ => Return tt)
              connected_browser fresh_browser [] _ eq_refl C) as (B & P & _).
  split; [exact C|]. split; [exact B | exact P].
Defined.

(** A page that refuses the connection. *)
Lemma goto_outcomes_witness :
  let m := "Network error navigating to http://down.example/: page.goto: net::ERR_CONNECTION_REFUSED" in
  fst (fst (goto (num:=Z) sample_env "http://down.example/" 30000%Z
              connected_browser [])) = Throw (JsError false m) /\
  (m = not_connected_text \/
   (exists p, m = "Invalid protocol: " ++ p ++ ". Only HTTP and HTTPS are supported.") \/
   m = "Invalid URL format: " ++ "http://down.example/" \/
   exists cause,
     m = navigation_failure_text (num:=Z) "http://down.example/" 30000%Z cause).
Proof.
  intros m.
  assert (E : fst (fst (goto (num:=Z) sample_env "http://down.example/" 30000%Z
                          connected_browser [])) = Throw (JsError false m))
    by (vm_compute; reflexivity).
  destruct (goto_outcomes (num:=Z) sample_env "http://down.example/" 30000%Z
              connected_browser []) as (_ & _ & _ & T & _).
  split; [exact E | exact (proj2 (T false m E))].
Defined.

Lemma navigation_failure_aborts_tool_witness :
  takeSnapshot (num:=Z) sample_env 0
    {| ts_url := Some "ftp://example.com"; ts_verbose := Some true |}
    connected_browser [] =
  (Throw (JsError false "Invalid protocol: ftp:. Only HTTP and HTTPS are supported."),
   connected_browser, []).
Proof.
  destruct (navigation_failure_aborts_tool (num:=Z) sample_env 0
              (Some "ftp://example.com") (Some true) "1+1"
              connected_browser connected_browser [] []
              (JsError false "Invalid protocol: ftp:. Only HTTP and HTTPS are supported."))
    as (T & _); [vm_compute; reflexivity | exact T].
Defined.

Lemma callTool_keeps_connection_witness :
  snd (fst (callTool (num:=Z) sample_env "take_snapshot"
              (Some [("url", JStr "http://slow.example/")]) connected_browser []))
    = connected_browser.
Proof.
  destruct (callTool_keeps_connection (num:=Z) sample_env "take_snapshot"
              (Some [("url", JStr "http://slow.example/")]) connected_browser [])
    as (_ & K).
  exact (proj1 (K 0 eq_refl)).
Defined.

Lemma callTool_unknown_tool_witness :
  callTool (num:=Z) sample_env "click" None connected_browser [] =
  (Return {| text := "Error: Unknown tool: click"; isError := true |},
   connected_browser, []).
Proof.
  exact (callTool_unknown_tool (num:=Z) sample_env "click" None
           connected_browser connected_browser [] [] 0 eq_refl eq_refl eq_refl).
Defined.

(** Firefox is not installed. *)
Lemma callTool_connection_failure_witness :
  callTool (num:=Z) no_firefox_env "take_snapshot" None fresh_browser [] =
  (Return {| text := "Error: browserType.launch: Executable doesn't exist";
             isError := true |},
   fresh_browser,
   [EConsoleError "Launching Firefox..."; EFirefoxLaunch false]).
Proof.
  destruct (callTool_connection_failure (num:=Z) no_firefox_env "take_snapshot" None
              fresh_browser fresh_browser []
              [EConsoleError "Launching Firefox..."; EFirefoxLaunch false]
              (JsError false "browserType.launch: Executable doesn't exist"))
    as (C & _); [reflexivity | vm_compute; reflexivity | exact C].
Defined.


Lemma handles_paired_invariant_witness :
  handles_paired
    (snd (fst (callTool (num:=Z) no_page_env "take_snapshot" None fresh_browser [])))
  = true.
Proof.
  destruct (handles_paired_invariant (num:=Z) no_page_env fresh_browser [] eq_refl)
    as (_ & _ & _ & _ & T).
  exact (T "take_snapshot" None).
Defined.

Lemma verbose_fields_never_printed_witness :
  formatSnapshot (fst (assignUIDs (num:=Z) true described_tree 0%N)) 0 =
  formatSnapshot
    (fst (assignUIDs (num:=Z) true (delete_verbose_everywhere described_tree) 0%N)) 0.
Proof.
  exact (proj1 (verbose_fields_never_printed (num:=Z) true described_tree
                  (delete_verbose_everywhere described_tree) 0%N 0 eq_refl)).
Defined.

Lemma eligible_nodes_show_uid_witness :
  Forall (fun n' =>
            uid_guard false n' = true ->
            exists i r rest,
              role n' = Some r /\ uid n' = Some ("uid_" ++ dec i) /\
              node_parts n' = ("[uid_" ++ dec i ++ "]") :: r :: rest /\
              forall d, node_line n' d <> "")
         (preorder (fst (assignUIDs (num:=Z) false described_tree 0%N))).
Proof. exact (eligible_nodes_show_uid (num:=Z) false described_tree 0%N). Defined.

Lemma takeSnapshotSchema_accepts_witness :
  takeSnapshotSchema_parse (num:=Z) sample_env
    [("verbose", JBool true); ("depth", JNum 3%Z)] fresh_browser [] =
  (Return {| ts_url := None; ts_verbose := Some true |}, fresh_browser, []).
Proof.
  destruct (takeSnapshotSchema_accepts (num:=Z) sample_env
              [("verbose", JBool true); ("depth", JNum 3%Z)] fresh_browser []
              {| ts_url := None; ts_verbose := Some true |}) as (I & _).
  apply I. split; [left; split; reflexivity|].
  right. exists true. split; reflexivity.
Defined.

Lemma required_keys_enforced_witness :
  exists issues,
    In (InvalidType "script" "string") issues /\
    callTool (num:=Z) sample_env "evaluate_script"
      (Some [("url", JStr "http://login.example/")]) connected_browser [] =
    (Return {| text := "Error: " ++ zod_message sample_env issues; isError := true |},
     connected_browser, []).
Proof.
  apply (required_keys_enforced (num:=Z) sample_env evaluateScriptTool "script"
           [("url", JStr "http://login.example/")]
           connected_browser connected_browser [] [] 0).
  - right. left. reflexivity.
  - left. reflexivity.
  - reflexivity.
  - reflexivity.
  - reflexivity.
Defined.
